(** * CalorAI food pipeline: normalizer and resumable uploader

    A shallow embedding of [scripts/usda_cleaner.py] and
    [scripts/upload_foods.py], and the properties of the two scripts
    that the specification states.

    Conventions of the embedding.
    - Python [float] values are modelled by exact rationals [Q]: every
      finite float is a rational and the comparisons of the code against
      its literal thresholds are exact.  NaN and infinities are left out.
    - Python [str] is modelled by [string] (8-bit characters); the case
      and whitespace functions are the ASCII fragment of Python's.
    - A [dict] with a fixed set of keys is a [Record]; a key that may be
      absent (or [null]) is an [option] field.
    - A Python [set] of ids is a [gset string].
    - The remote table, the embedding service and the progress file are
      an explicit world threaded through the uploader; a write of the
      progress file can fail without the run noticing, as in
      [save_progress]. *)

From Stdlib Require Import QArith Qround ZArith String Ascii List Lia Bool.
From stdpp Require Import gmap strings list pretty.

Import ListNotations.
Local Open Scope string_scope.

(** ** Python string primitives (ASCII fragment) *)

Module PyStr.

Definition is_upper (c : ascii) : bool :=
  let n := nat_of_ascii c in Nat.leb 65 n && Nat.leb n 90.

Definition is_lower (c : ascii) : bool :=
  let n := nat_of_ascii c in Nat.leb 97 n && Nat.leb n 122.

Definition lower_char (c : ascii) : ascii :=
  if is_upper c then ascii_of_nat (nat_of_ascii c + 32) else c.

Definition upper_char (c : ascii) : ascii :=
  if is_lower c then ascii_of_nat (nat_of_ascii c - 32) else c.

(** [s.lower()] *)
Fixpoint lower (s : string) : string :=
  match s with
  | EmptyString => EmptyString
  | String c s' => String (lower_char c) (lower s')
  end.

(** [s.upper()] *)
Fixpoint upper (s : string) : string :=
  match s with
  | EmptyString => EmptyString
  | String c s' => String (upper_char c) (upper s')
  end.

(** Characters removed by [str.strip()] with no argument: tab, line feed,
    vertical tab, form feed, carriage return, the four separators
    0x1c-0x1f and the space. *)
Definition is_space (c : ascii) : bool :=
  let n := nat_of_ascii c in
  (Nat.leb 9 n && Nat.leb n 13) || (Nat.leb 28 n && Nat.leb n 32).

Fixpoint lstrip (s : string) : string :=
  match s with
  | EmptyString => EmptyString
  | String c s' => if is_space c then lstrip s' else s
  end.

Fixpoint rev_onto (s acc : string) : string :=
  match s with
  | EmptyString => acc
  | String c s' => rev_onto s' (String c acc)
  end.

Definition reverse (s : string) : string := rev_onto s EmptyString.

Definition rstrip (s : string) : string := reverse (lstrip (reverse s)).

(** [s.strip()] *)
Definition strip (s : string) : string := rstrip (lstrip s).

(** [s.title()]: the first cased character of every run of letters is
    upper-cased, the others lower-cased. *)
Fixpoint title_from (inside_word : bool) (s : string) : string :=
  match s with
  | EmptyString => EmptyString
  | String c s' =>
      if is_upper c || is_lower c
      then String (if inside_word then lower_char c else upper_char c)
                  (title_from true s')
      else String c (title_from false s')
  end.

Definition title (s : string) : string := title_from false s.

(** [sub in s] *)
Fixpoint contains (sub s : string) : bool :=
  String.prefix sub s ||
  match s with
  | EmptyString => false
  | String _ s' => contains sub s'
  end.

(** [sep.join(parts)] *)
Fixpoint join (sep : string) (parts : list string) : string :=
  match parts with
  | [] => EmptyString
  | [p] => p
  | p :: rest => p ++ sep ++ join sep rest
  end.

(** Truthiness of a string: [not s] holds for the empty string only. *)
Definition truthy (s : string) : bool :=
  match s with EmptyString => false | String _ _ => true end.

End PyStr.

(** ** Python numeric primitives *)

Module PyNum.

Local Open Scope Q_scope.

(** Nearest integer, ties to the even one, as [round] does. *)
Definition round_half_even (q : Q) : Z :=
  let f := Qfloor q in
  let r := q - inject_Z f in
  match Qcompare r (1 # 2) with
  | Lt => f
  | Gt => (f + 1)%Z
  | Eq => if Z.even f then f else (f + 1)%Z
  end.

(** [round(x, 2)] *)
Definition round2 (x : Q) : Q := inject_Z (round_half_even (x * 100)) / 100.

(** [x == 0] *)
Definition is_zero (x : Q) : bool := Qeq_bool x 0.

End PyNum.

(** ** The normalizer: [usda_cleaner.py] *)

Module Cleaner.

Import PyStr PyNum.
Local Open Scope list_scope.

(** [NUTRIENT_IDS] *)
Module NUTRIENT_IDS.
Definition ENERGY_KCAL : Z := 1008.
Definition PROTEIN : Z := 1003.
Definition FAT : Z := 1004.
Definition CARBS : Z := 1005.
Definition FIBER : Z := 1079.
Definition SUGAR : Z := 1063.
Definition SODIUM : Z := 1093.
Definition CALCIUM : Z := 1087.
Definition IRON : Z := 1089.
Definition POTASSIUM : Z := 1092.
Definition VITAMIN_C : Z := 1162.
Definition SATURATED_FAT : Z := 1258.
End NUTRIENT_IDS.

(** One entry of a raw record's [foodNutrients]: [nutrient_id] is
    [entry.get('nutrient', {}).get('id')] and [amount] is
    [entry.get('amount', 0)], [None] standing for a [null] amount (an
    absent amount is [Some 0]). *)
Record NutrientEntry := {
  nutrient_id : option Z;
  amount : option Q
}.

Record FoodCategory := {
  category_description : option string
}.

(** A raw USDA record; [None] is an absent key (for the description, an
    absent or [null] one: the code treats both alike). *)
Record RawFood := {
  raw_description : option string;
  foodNutrients : option (list NutrientEntry);
  fdcId : option Z;
  foodCategory : option FoodCategory
}.

Record Nutrients := {
  calcium_mg : Q;
  iron_mg : Q;
  potassium_mg : Q;
  vitamin_c_mg : Q;
  saturated_fat_g : Q
}.

(** The canonical record. *)
Record Food := {
  external_id : string;
  name : string;
  description : string;
  brand : option string;
  category : string;
  calories_per_100g : Q;
  protein_per_100g : Q;
  fat_per_100g : Q;
  carbs_per_100g : Q;
  fiber_per_100g : Q;
  sugar_per_100g : Q;
  sodium_per_100g : Q;
  data_source : string;
  nutrients : Nutrients;
  embedding_text : string
}.

(** [food['embedding_text'] = text] *)
Definition set_embedding_text (food : Food) (text : string) : Food :=
  {| external_id := external_id food;
     name := name food;
     description := description food;
     brand := brand food;
     category := category food;
     calories_per_100g := calories_per_100g food;
     protein_per_100g := protein_per_100g food;
     fat_per_100g := fat_per_100g food;
     carbs_per_100g := carbs_per_100g food;
     fiber_per_100g := fiber_per_100g food;
     sugar_per_100g := sugar_per_100g food;
     sodium_per_100g := sodium_per_100g food;
     data_source := data_source food;
     nutrients := nutrients food;
     embedding_text := text |}.

(** [get_nutrient]: the amount of the first entry carrying the id. *)
Fixpoint get_nutrient (nutrients : list NutrientEntry) (id : Z) : Q :=
  match nutrients with
  | [] => 0
  | entry :: rest =>
      if bool_decide (nutrient_id entry = Some id)
      then match amount entry with
           | Some a => a
           | None => 0
           end
      else get_nutrient rest id
  end.

Definition brands : list string :=
  ["PILLSBURY"; "SABRA"; "TRIBE"; "KELLOGG"; "GENERAL MILLS"; "KRAFT";
   "PEPSI"; "COCA COLA"; "MCDONALD"; "BURGER KING"; "SUBWAY"].

Fixpoint first_brand (name_upper : string) (bs : list string) : option string :=
  match bs with
  | [] => None
  | b :: rest =>
      if contains b name_upper then Some (title b) else first_brand name_upper rest
  end.

(** [extract_brand] *)
Definition extract_brand (name : string) : option string :=
  first_brand (upper name) brands.

(** The list [parts] of [create_embedding_text] when it is joined. *)
Definition embedding_parts (food : Food) : list string :=
  let parts := [lower (name food); lower (category food)] in
  let calories := calories_per_100g food in
  let parts :=
    if Qle_bool calories 50 then parts ++ ["very low calorie"]
    else if Qle_bool calories 100 then parts ++ ["low calorie"]
    else if Qle_bool calories 200 then parts ++ ["moderate calorie"]
    else if Qle_bool calories 400 then parts ++ ["high calorie"]
    else parts ++ ["very high calorie"] in
  let protein := protein_per_100g food in
  let parts :=
    if Qle_bool 20 protein then parts ++ ["very high protein"]
    else if Qle_bool 15 protein then parts ++ ["high protein"]
    else if Qle_bool 10 protein then parts ++ ["moderate protein"]
    else if Qle_bool 5 protein then parts ++ ["some protein"]
    else parts ++ ["low protein"] in
  let fat := fat_per_100g food in
  let parts :=
    if Qle_bool fat 3 then parts ++ ["low fat"]
    else if Qle_bool fat 10 then parts ++ ["moderate fat"]
    else parts ++ ["high fat"] in
  let carbs := carbs_per_100g food in
  let parts :=
    if Qle_bool carbs 5 then parts ++ ["very low carb keto friendly"]
    else if Qle_bool carbs 20 then parts ++ ["low carb"]
    else if Qle_bool carbs 45 then parts ++ ["moderate carb"]
    else parts ++ ["high carb"] in
  let parts :=
    if Qle_bool 10 (fiber_per_100g food) then parts ++ ["very high fiber"]
    else if Qle_bool 5 (fiber_per_100g food) then parts ++ ["high fiber"]
    else parts in
  let parts :=
    if Qle_bool 15 (sugar_per_100g food) then parts ++ ["high sugar sweet"]
    else if Qle_bool (sugar_per_100g food) 2 then parts ++ ["sugar free"]
    else parts in
  let parts :=
    if Qle_bool 600 (sodium_per_100g food) then parts ++ ["high sodium salty"]
    else if Qle_bool (sodium_per_100g food) 140 then parts ++ ["low sodium"]
    else parts in
  let parts :=
    if Qle_bool 15 protein && Qle_bool calories 200
    then parts ++ ["lean protein snack"] else parts in
  let parts :=
    if Qle_bool 15 fat && Qle_bool carbs 10
    then parts ++ ["ketogenic food"] else parts in
  let parts :=
    if Qle_bool 5 (fiber_per_100g food) && Qle_bool calories 150
    then parts ++ ["filling low calorie"] else parts in
  parts.

(** [create_embedding_text] *)
Definition create_embedding_text (food : Food) : string :=
  join " " (embedding_parts food).

(** [clean_food_data].  The record is first built without its
    [embedding_text] key (the empty string stands for the absent key,
    which [create_embedding_text] never reads) and the key is then set. *)
Definition clean_food_data (raw_food : RawFood) : option Food :=
  match raw_description raw_food with
  | None => None
  | Some raw_name =>
      if negb (truthy raw_name) then None else
      let nutrients := default [] (foodNutrients raw_food) in
      match nutrients with
      | [] => None
      | _ :: _ =>
          let external_id :=
            match fdcId raw_food with
            | Some id => pretty id
            | None => ""
            end in
          let name := strip raw_name in
          let category :=
            match foodCategory raw_food with
            | Some c => default "Unknown" (category_description c)
            | None => "Unknown"
            end in
          let calories := get_nutrient nutrients NUTRIENT_IDS.ENERGY_KCAL in
          let protein := get_nutrient nutrients NUTRIENT_IDS.PROTEIN in
          let fat := get_nutrient nutrients NUTRIENT_IDS.FAT in
          let carbs := get_nutrient nutrients NUTRIENT_IDS.CARBS in
          let fiber := get_nutrient nutrients NUTRIENT_IDS.FIBER in
          let sugar := get_nutrient nutrients NUTRIENT_IDS.SUGAR in
          let sugar := if is_zero sugar then get_nutrient nutrients 2000 else sugar in
          let sodium := get_nutrient nutrients NUTRIENT_IDS.SODIUM in
          if negb (truthy name) || is_zero calories then None else
          let clean_food :=
            {| external_id := external_id;
               name := name;
               description := name;
               brand := extract_brand name;
               category := category;
               calories_per_100g := round2 calories;
               protein_per_100g := round2 protein;
               fat_per_100g := round2 fat;
               carbs_per_100g := round2 carbs;
               fiber_per_100g := round2 fiber;
               sugar_per_100g := round2 sugar;
               sodium_per_100g := round2 sodium;
               data_source := "usda";
               nutrients :=
                 {| calcium_mg := round2 (get_nutrient nutrients NUTRIENT_IDS.CALCIUM);
                    iron_mg := round2 (get_nutrient nutrients NUTRIENT_IDS.IRON);
                    potassium_mg := round2 (get_nutrient nutrients NUTRIENT_IDS.POTASSIUM);
                    vitamin_c_mg := round2 (get_nutrient nutrients NUTRIENT_IDS.VITAMIN_C);
                    saturated_fat_g :=
                      round2 (get_nutrient nutrients NUTRIENT_IDS.SATURATED_FAT) |};
               embedding_text := "" |} in
          Some (set_embedding_text clean_food (create_embedding_text clean_food))
      end
  end.

(** Truthiness of the optional [limit] argument: [None] and [0] are
    falsy. *)
Definition limit_set (limit : option Z) : bool :=
  match limit with
  | None => false
  | Some n => negb (n =? 0)%Z
  end.

(** The cleaning loop of [process_usda_json], from the state
    ([cleaned_foods], [skipped]) over the raw records still to visit. *)
Fixpoint clean_loop (limit : option Z) (foods : list RawFood)
    (cleaned_foods : list Food) (skipped : nat) : list Food * nat :=
  match foods with
  | [] => (cleaned_foods, skipped)
  | food :: rest =>
      if limit_set limit &&
         (default 0%Z limit <=? Z.of_nat (length cleaned_foods))%Z
      then (cleaned_foods, skipped)
      else match clean_food_data food with
           | Some clean_food =>
               clean_loop limit rest (cleaned_foods ++ [clean_food]) skipped
           | None => clean_loop limit rest cleaned_foods (S skipped)
           end
  end.

(** The records and the skip count that [process_usda_json] writes out
    and reports for the raw records [foods]. *)
Definition process_usda_json (foods : list RawFood) (limit : option Z)
    : list Food * nat :=
  clean_loop limit foods [] 0.

End Cleaner.

(** ** The uploader: [upload_foods.py] *)

Module Uploader.

Import Cleaner.
Local Open Scope list_scope.

(** An embedding vector. *)
Definition Embedding := list Q.

(** One row of the upsert payload: the record with its nutrient group
    flattened and its embedding attached. *)
Record UploadRow := {
  row_external_id : string;
  row_name : string;
  row_description : string;
  row_category : string;
  row_calories_per_100g : Q;
  row_protein_per_100g : Q;
  row_fat_per_100g : Q;
  row_carbs_per_100g : Q;
  row_fiber_per_100g : Q;
  row_sugar_per_100g : Q;
  row_sodium_per_100g : Q;
  row_calcium_mg : Q;
  row_iron_mg : Q;
  row_potassium_mg : Q;
  row_vitamin_c_mg : Q;
  row_saturated_fat_g : Q;
  row_data_source : string;
  row_embedding_text : string;
  row_embedding : Embedding
}.

(** The progress ledger, as stored in [upload_progress.json]. *)
Record Progress := {
  uploaded_ids : list string;
  last_batch : nat;
  total_uploaded : nat
}.

(** What the run can observe and change outside itself.
    - [progress_file]: the contents of the progress file, [None] when it
      is missing or unreadable;
    - [embedding_requests]: every request sent to the embedding service,
      oldest first;
    - [upsert_calls]: every upsert sent to the remote table, oldest first;
    - [upserted]: the payloads the remote table accepted, oldest first. *)
Record World := {
  progress_file : option Progress;
  embedding_requests : list (list string);
  upsert_calls : list (list UploadRow);
  upserted : list (list UploadRow)
}.

(** What a write of the progress file does.  [save_progress] catches
    the exception of a failed write and only prints a warning, so the
    file is then either untouched ([Stale]: it could not be opened) or
    left unreadable ([Truncated]: it was opened and the dump failed). *)
Inductive WriteOutcome := Written | Stale | Truncated.

(** The two collaborators and the local file system.  [None] or [false]
    is a raised exception.
    - [select_page offset]: the [external_id]s returned by the range
      query starting at [offset];
    - [embeddings_create n texts]: the vectors returned by the request
      sent after [n] earlier requests;
    - [upsert_execute n rows]: whether the upsert sent after [n] earlier
      upserts succeeds;
    - [write_progress progress]: what the write of the ledger [progress]
      to the progress file does. *)
Record Services := {
  select_page : nat -> option (list string);
  embeddings_create : nat -> list string -> option (list Embedding);
  upsert_execute : nat -> list UploadRow -> bool;
  write_progress : Progress -> WriteOutcome
}.

(** [load_progress] *)
Definition load_progress (w : World) : Progress :=
  match progress_file w with
  | Some progress => progress
  | None => {| uploaded_ids := []; last_batch := 0; total_uploaded := 0 |}
  end.

(** The contents of the progress file after an attempt to write the
    ledger [progress] over the contents [old]. *)
Definition write_file (sv : Services) (progress : Progress)
    (old : option Progress) : option Progress :=
  match write_progress sv progress with
  | Written => Some progress
  | Stale => old
  | Truncated => None
  end.

(** [save_progress]: a failed write is caught and not reported to the
    caller. *)
Definition save_progress (sv : Services) (progress : Progress) (w : World)
    : World :=
  {| progress_file := write_file sv progress (progress_file w);
     embedding_requests := embedding_requests w;
     upsert_calls := upsert_calls w;
     upserted := upserted w |}.

(** Removal of the progress file when it exists. *)
Definition remove_progress_file (w : World) : World :=
  {| progress_file := None;
     embedding_requests := embedding_requests w;
     upsert_calls := upsert_calls w;
     upserted := upserted w |}.

Definition page_size : nat := 1000.

(** The [while True] loop of [get_existing_food_ids], run for at most
    [fuel] pages.  [None]: the loop is still running after [fuel] pages;
    [Some None]: a query raised; [Some (Some ids)]: the loop ended. *)
Fixpoint fetch_pages (sv : Services) (fuel offset : nat) (all_ids : gset string)
    : option (option (gset string)) :=
  match fuel with
  | O => None
  | S fuel' =>
      match select_page sv offset with
      | None => Some None
      | Some data =>
          match data with
          | [] => Some (Some all_ids)
          | _ :: _ =>
              let batch_ids : gset string := list_to_set data in
              let all_ids := all_ids ∪ batch_ids in
              if (length data <? page_size)%nat then Some (Some all_ids)
              else fetch_pages sv fuel' (offset + page_size) all_ids
          end
      end
  end.

(** [get_existing_food_ids]; [None] when [fuel] pages do not suffice. *)
Definition get_existing_food_ids (sv : Services) (fuel : nat)
    : option (gset string) :=
  match fetch_pages sv fuel 0 ∅ with
  | None => None
  | Some None => Some ∅
  | Some (Some all_ids) => Some all_ids
  end.

Definition max_retries : nat := 3.

(** The attempts of [generate_embeddings] still to make.  Every attempt
    is logged; the last one re-raises.  Running out of attempts without
    a raise returns Python's [None], on which the caller's [len] raises,
    so both are [None] here. *)
Fixpoint embedding_attempts (sv : Services) (attempts : list nat)
    (texts : list string) (w : World) : World * option (list Embedding) :=
  match attempts with
  | [] => (w, None)
  | attempt :: rest =>
      let n := length (embedding_requests w) in
      let w' := {| progress_file := progress_file w;
                   embedding_requests := embedding_requests w ++ [texts];
                   upsert_calls := upsert_calls w;
                   upserted := upserted w |} in
      match embeddings_create sv n texts with
      | Some vectors => (w', Some vectors)
      | None =>
          if (attempt <? max_retries - 1)%nat
          then embedding_attempts sv rest texts w'
          else (w', None)
      end
  end.

(** [generate_embeddings] *)
Definition generate_embeddings (sv : Services) (texts : list string) (w : World)
    : World * option (list Embedding) :=
  embedding_attempts sv (seq 0 max_retries) texts w.

(** The loop of [filter_new_foods], from the list [new_foods] built so
    far. *)
Fixpoint filter_loop (foods : list Food) (existing_ids uploaded_ids : gset string)
    (new_foods : list Food) : list Food :=
  match foods with
  | [] => new_foods
  | food :: rest =>
      let external_id := external_id food in
      if bool_decide (external_id ∉ existing_ids) &&
         bool_decide (external_id ∉ uploaded_ids)
      then filter_loop rest existing_ids uploaded_ids (new_foods ++ [food])
      else filter_loop rest existing_ids uploaded_ids new_foods
  end.

(** [filter_new_foods]: the new records, and the ledger as the call
    leaves it. *)
Definition filter_new_foods (foods : list Food) (existing_ids : gset string)
    (progress : Progress) : list Food * Progress :=
  let uploaded_ids : gset string := list_to_set (uploaded_ids progress) in
  (filter_loop foods existing_ids uploaded_ids [], progress).

(** The state of the batch loop of [batch_upload_foods]: the world, the
    in-memory ledger and the running count. *)
Record LoopState := {
  world : World;
  progress : Progress;
  uploaded_count : nat
}.

(** How the body of the batch loop ends: the ledger was advanced, the
    [continue] after a count mismatch was taken, or an exception reached
    the handler. *)
Inductive BatchOutcome := Committed | Skipped | Failed.

(** [foods[start:stop]] for non-negative bounds. *)
Definition py_slice {A} (l : list A) (start stop : nat) : list A :=
  firstn (stop - start) (skipn start l).

(** [upload_row] for one record and its embedding. *)
Definition upload_row (food : Food) (embedding : Embedding) : UploadRow :=
  {| row_external_id := external_id food;
     row_name := name food;
     row_description := description food;
     row_category := category food;
     row_calories_per_100g := calories_per_100g food;
     row_protein_per_100g := protein_per_100g food;
     row_fat_per_100g := fat_per_100g food;
     row_carbs_per_100g := carbs_per_100g food;
     row_fiber_per_100g := fiber_per_100g food;
     row_sugar_per_100g := sugar_per_100g food;
     row_sodium_per_100g := sodium_per_100g food;
     row_calcium_mg := calcium_mg (nutrients food);
     row_iron_mg := iron_mg (nutrients food);
     row_potassium_mg := potassium_mg (nutrients food);
     row_vitamin_c_mg := vitamin_c_mg (nutrients food);
     row_saturated_fat_g := saturated_fat_g (nutrients food);
     row_data_source := data_source food;
     row_embedding_text := embedding_text food;
     row_embedding := embedding |}.

(** The slice of [foods] that batch [i] covers. *)
Definition batch_of (foods : list Food) (batch_size i : nat) : list Food :=
  let batch_start := i * batch_size in
  let batch_end := Nat.min (batch_start + batch_size) (length foods) in
  py_slice foods batch_start batch_end.

(** The upsert of one payload: the call is logged, and the payload too
    when the remote table accepts it. *)
Definition upsert (sv : Services) (upload_data : list UploadRow) (w : World)
    : World * bool :=
  let n := length (upsert_calls w) in
  let ok := upsert_execute sv n upload_data in
  ({| progress_file := progress_file w;
      embedding_requests := embedding_requests w;
      upsert_calls := upsert_calls w ++ [upload_data];
      upserted := if ok then upserted w ++ [upload_data] else upserted w |},
   ok).

(** One iteration of the batch loop, for batch index [i]. *)
Definition upload_batch (sv : Services) (foods : list Food) (batch_size i : nat)
    (st : LoopState) : LoopState * BatchOutcome :=
  let batch := batch_of foods batch_size i in
  let embedding_texts := map embedding_text batch in
  let (w, response) := generate_embeddings sv embedding_texts (world st) in
  match response with
  | None =>
      ({| world := w; progress := progress st;
          uploaded_count := uploaded_count st |}, Failed)
  | Some embeddings =>
      if negb (length embeddings =? length batch)%nat
      then ({| world := w; progress := progress st;
               uploaded_count := uploaded_count st |}, Skipped)
      else
        let upload_data := zip_with upload_row batch embeddings in
        let batch_ids := map external_id batch in
        let (w, ok) := upsert sv upload_data w in
        if ok then
          let uploaded_count := uploaded_count st + length batch in
          let progress :=
            {| uploaded_ids := uploaded_ids (progress st) ++ batch_ids;
               last_batch := i + 1;
               total_uploaded := uploaded_count |} in
          ({| world := save_progress sv progress w; progress := progress;
              uploaded_count := uploaded_count |}, Committed)
        else
          ({| world := w; progress := progress st;
              uploaded_count := uploaded_count st |}, Failed)
  end.

(** The batch loop over the indices still to visit; the boolean tells
    whether the loop ran to its end ([true]) or was left by the
    handler's [return] ([false]). *)
Fixpoint upload_loop (sv : Services) (foods : list Food) (batch_size : nat)
    (batches : list nat) (st : LoopState) : LoopState * bool :=
  match batches with
  | [] => (st, true)
  | i :: rest =>
      let (st', outcome) := upload_batch sv foods batch_size i st in
      match outcome with
      | Failed => (st', false)
      | Committed | Skipped => upload_loop sv foods batch_size rest st'
      end
  end.

(** [range(start_batch, total_batches)] of [batch_upload_foods]. *)
Definition batch_range (foods : list Food) (batch_size start_batch : nat)
    : list nat :=
  let total_batches := (length foods + batch_size - 1) / batch_size in
  seq start_batch (total_batches - start_batch).

(** [batch_upload_foods]: the world it leaves and the count it returns.
    The cost estimate and the progress bar only print.  [batch_size] is
    positive (Python raises on the division otherwise). *)
Definition batch_upload_foods (sv : Services) (foods : list Food)
    (batch_size : nat) (w : World) : World * nat :=
  match foods with
  | [] => (w, 0)
  | _ :: _ =>
      let progress := load_progress w in
      let start_batch := last_batch progress in
      let uploaded_count := total_uploaded progress in
      let (st, completed) :=
        upload_loop sv foods batch_size (batch_range foods batch_size start_batch)
          {| world := w; progress := progress;
             uploaded_count := uploaded_count |} in
      if completed
      then (remove_progress_file (world st), Uploader.uploaded_count st)
      else (world st, Uploader.uploaded_count st)
  end.

(** [l[:n]] for any integer [n]. *)
Definition py_slice_to {A} (l : list A) (n : Z) : list A :=
  if (0 <=? n)%Z then firstn (Z.to_nat n) l
  else firstn (length l - Z.to_nat (- n)) l.

(** The [--limit] step of [main]. *)
Definition apply_limit (limit : option Z) (all_foods : list Food) : list Food :=
  if limit_set limit then py_slice_to all_foods (default 0%Z limit)
  else all_foods.

(** How [main] ends once the clients are set up and the input is
    loaded. *)
Inductive MainResult :=
  | NoFoods
  | AllExist
  | Cancelled
  | Uploaded (uploaded : nat).

(** [main] from the loaded records [all_foods]: [confirm] is the
    operator's answer to the prompt, [fuel] bounds the pages read by the
    existing-set query ([None] when they do not suffice). *)
Definition main (sv : Services) (all_foods : list Food) (limit : option Z)
    (confirm : string) (fuel : nat) (w : World) : option (World * MainResult) :=
  match all_foods with
  | [] => Some (w, NoFoods)
  | _ :: _ =>
      let all_foods := apply_limit limit all_foods in
      match get_existing_food_ids sv fuel with
      | None => None
      | Some existing_ids =>
          let progress := load_progress w in
          let (new_foods, progress) :=
            filter_new_foods all_foods existing_ids progress in
          match new_foods with
          | [] => Some (w, AllExist)
          | _ :: _ =>
              if (last_batch progress =? 0)%nat &&
                 negb (String.eqb (PyStr.lower confirm) "y")
              then Some (w, Cancelled)
              else
                let (w', uploaded) := batch_upload_foods sv new_foods 50 w in
                Some (w', Uploaded uploaded)
          end
      end
  end.

End Uploader.

(** ** Specification-side definitions for the normalizer *)

Module CleanerSpec.

Import PyStr PyNum Cleaner.
Local Open Scope list_scope.

(** The tag each block of [create_embedding_text] appends, as a function
    of the value the block tests. *)
Definition calorie_tags (calories : Q) : list string :=
  if Qle_bool calories 50 then ["very low calorie"]
  else if Qle_bool calories 100 then ["low calorie"]
  else if Qle_bool calories 200 then ["moderate calorie"]
  else if Qle_bool calories 400 then ["high calorie"]
  else ["very high calorie"].

Definition protein_tags (protein : Q) : list string :=
  if Qle_bool 20 protein then ["very high protein"]
  else if Qle_bool 15 protein then ["high protein"]
  else if Qle_bool 10 protein then ["moderate protein"]
  else if Qle_bool 5 protein then ["some protein"]
  else ["low protein"].

Definition fat_tags (fat : Q) : list string :=
  if Qle_bool fat 3 then ["low fat"]
  else if Qle_bool fat 10 then ["moderate fat"]
  else ["high fat"].

Definition carb_tags (carbs : Q) : list string :=
  if Qle_bool carbs 5 then ["very low carb keto friendly"]
  else if Qle_bool carbs 20 then ["low carb"]
  else if Qle_bool carbs 45 then ["moderate carb"]
  else ["high carb"].

Definition fiber_tags (fiber : Q) : list string :=
  if Qle_bool 10 fiber then ["very high fiber"]
  else if Qle_bool 5 fiber then ["high fiber"]
  else [].

Definition sugar_tags (sugar : Q) : list string :=
  if Qle_bool 15 sugar then ["high sugar sweet"]
  else if Qle_bool sugar 2 then ["sugar free"]
  else [].

Definition sodium_tags (sodium : Q) : list string :=
  if Qle_bool 600 sodium then ["high sodium salty"]
  else if Qle_bool sodium 140 then ["low sodium"]
  else [].

Definition lean_tags (protein calories : Q) : list string :=
  if Qle_bool 15 protein && Qle_bool calories 200
  then ["lean protein snack"] else [].

Definition keto_tags (fat carbs : Q) : list string :=
  if Qle_bool 15 fat && Qle_bool carbs 10 then ["ketogenic food"] else [].

Definition filling_tags (fiber calories : Q) : list string :=
  if Qle_bool 5 fiber && Qle_bool calories 150
  then ["filling low calorie"] else [].

(** The bucket rules as the specification words them: a value, and the
    tags the rule gives it. *)
Definition calorie_rule (c : Q) (tags : list string) : Prop :=
  (c <= 50 ∧ tags = ["very low calorie"])%Q ∨
  (50 < c ∧ c <= 100 ∧ tags = ["low calorie"])%Q ∨
  (100 < c ∧ c <= 200 ∧ tags = ["moderate calorie"])%Q ∨
  (200 < c ∧ c <= 400 ∧ tags = ["high calorie"])%Q ∨
  (400 < c ∧ tags = ["very high calorie"])%Q.

Definition protein_rule (p : Q) (tags : list string) : Prop :=
  (20 <= p ∧ tags = ["very high protein"])%Q ∨
  (15 <= p ∧ p < 20 ∧ tags = ["high protein"])%Q ∨
  (10 <= p ∧ p < 15 ∧ tags = ["moderate protein"])%Q ∨
  (5 <= p ∧ p < 10 ∧ tags = ["some protein"])%Q ∨
  (p < 5 ∧ tags = ["low protein"])%Q.

Definition fat_rule (f : Q) (tags : list string) : Prop :=
  (f <= 3 ∧ tags = ["low fat"])%Q ∨
  (3 < f ∧ f <= 10 ∧ tags = ["moderate fat"])%Q ∨
  (10 < f ∧ tags = ["high fat"])%Q.

Definition carb_rule (c : Q) (tags : list string) : Prop :=
  (c <= 5 ∧ tags = ["very low carb keto friendly"])%Q ∨
  (5 < c ∧ c <= 20 ∧ tags = ["low carb"])%Q ∨
  (20 < c ∧ c <= 45 ∧ tags = ["moderate carb"])%Q ∨
  (45 < c ∧ tags = ["high carb"])%Q.

Definition fiber_rule (f : Q) (tags : list string) : Prop :=
  (10 <= f ∧ tags = ["very high fiber"])%Q ∨
  (5 <= f ∧ f < 10 ∧ tags = ["high fiber"])%Q ∨
  (f < 5 ∧ tags = [])%Q.

Definition sugar_rule (s : Q) (tags : list string) : Prop :=
  (15 <= s ∧ tags = ["high sugar sweet"])%Q ∨
  (s <= 2 ∧ tags = ["sugar free"])%Q ∨
  (2 < s ∧ s < 15 ∧ tags = [])%Q.

Definition sodium_rule (s : Q) (tags : list string) : Prop :=
  (600 <= s ∧ tags = ["high sodium salty"])%Q ∨
  (s <= 140 ∧ tags = ["low sodium"])%Q ∨
  (140 < s ∧ s < 600 ∧ tags = [])%Q.

(** A composite tag: present exactly when its condition holds. *)
Definition composite_rule (condition : Prop) (tag : string)
    (tags : list string) : Prop :=
  (condition ∧ tags = [tag]) ∨ (¬ condition ∧ tags = []).

(** Two values on the same side of an upper threshold ([x <= t]) and of
    a lower threshold ([t <= x]). *)
Definition same_le (t x y : Q) : Prop := (x <= t ↔ y <= t)%Q.
Definition same_ge (t x y : Q) : Prop := (t <= x ↔ t <= y)%Q.

(** Two records in the same bucket of every threshold rule, the three
    composite tags included. *)
Record same_buckets (a b : Food) : Prop := {
  same_calorie :
    Forall (λ t, same_le t (calories_per_100g a) (calories_per_100g b))
           [50; 100; 200; 400]%Q;
  same_protein :
    Forall (λ t, same_ge t (protein_per_100g a) (protein_per_100g b))
           [20; 15; 10; 5]%Q;
  same_fat :
    Forall (λ t, same_le t (fat_per_100g a) (fat_per_100g b)) [3; 10]%Q;
  same_carb :
    Forall (λ t, same_le t (carbs_per_100g a) (carbs_per_100g b))
           [5; 20; 45]%Q;
  same_fiber :
    Forall (λ t, same_ge t (fiber_per_100g a) (fiber_per_100g b)) [10; 5]%Q;
  same_sugar :
    same_ge 15 (sugar_per_100g a) (sugar_per_100g b) ∧
    same_le 2 (sugar_per_100g a) (sugar_per_100g b);
  same_sodium :
    same_ge 600 (sodium_per_100g a) (sodium_per_100g b) ∧
    same_le 140 (sodium_per_100g a) (sodium_per_100g b);
  same_lean :
    (15 <= protein_per_100g a ∧ calories_per_100g a <= 200 ↔
     15 <= protein_per_100g b ∧ calories_per_100g b <= 200)%Q;
  same_keto :
    (15 <= fat_per_100g a ∧ carbs_per_100g a <= 10 ↔
     15 <= fat_per_100g b ∧ carbs_per_100g b <= 10)%Q;
  same_filling :
    (5 <= fiber_per_100g a ∧ calories_per_100g a <= 150 ↔
     5 <= fiber_per_100g b ∧ calories_per_100g b <= 150)%Q
}.

(** The rejection condition as the specification words it. *)
Definition claimed_rejection (raw_food : RawFood) : Prop :=
  (raw_description raw_food = None ∨ raw_description raw_food = Some "") ∨
  default [] (foodNutrients raw_food) = [] ∨
  (get_nutrient (default [] (foodNutrients raw_food))
     NUTRIENT_IDS.ENERGY_KCAL == 0)%Q.

(** The rejection condition of the code: a description that is absent or
    blank (empty once stripped), no nutrient entry, or zero energy. *)
Definition rejection (raw_food : RawFood) : Prop :=
  match raw_description raw_food with
  | None => True
  | Some d => strip d = ""
  end ∨
  default [] (foodNutrients raw_food) = [] ∨
  (get_nutrient (default [] (foodNutrients raw_food))
     NUTRIENT_IDS.ENERGY_KCAL == 0)%Q.

(** Sample records. *)
Definition no_nutrients : Nutrients :=
  {| calcium_mg := 0; iron_mg := 0; potassium_mg := 0;
     vitamin_c_mg := 0; saturated_fat_g := 0 |}.

Definition sample (food_name : string) (calories protein : Q) : Food :=
  {| external_id := "1"; name := food_name; description := food_name;
     brand := None; category := "Fruits";
     calories_per_100g := calories; protein_per_100g := protein;
     fat_per_100g := 1; carbs_per_100g := 12; fiber_per_100g := 2;
     sugar_per_100g := 10; sodium_per_100g := 1;
     data_source := "usda"; nutrients := no_nutrients;
     embedding_text := "" |}.

Definition energy (kcal : Q) : NutrientEntry :=
  {| nutrient_id := Some NUTRIENT_IDS.ENERGY_KCAL; amount := Some kcal |}.

Definition raw_sample (d : option string) (entries : list NutrientEntry)
    : RawFood :=
  {| raw_description := d; foodNutrients := Some entries;
     fdcId := Some 171688%Z; foodCategory := None |}.

End CleanerSpec.

(** ** Specification-side definitions for the uploader *)

Module UploaderSpec.

Import Cleaner Uploader.
Local Open Scope list_scope.

(** The ids of the first [pages] pages of the remote table. *)
Fixpoint pages_ids (sv : Services) (pages : nat) : gset string :=
  match pages with
  | O => ∅
  | S n =>
      pages_ids sv n ∪ list_to_set (default [] (select_page sv (n * page_size)))
  end.

(** The state in which [batch_upload_foods] enters its loop. *)
Definition initial_state (w : World) : LoopState :=
  {| world := w; progress := load_progress w;
     uploaded_count := total_uploaded (load_progress w) |}.

(** The ledger once batch [i] is committed on top of ledger [p]. *)
Definition commit_batch (foods : list Food) (batch_size : nat)
    (p : Progress) (i : nat) : Progress :=
  {| uploaded_ids := uploaded_ids p ++ map external_id (batch_of foods batch_size i);
     last_batch := i + 1;
     total_uploaded := total_uploaded p + length (batch_of foods batch_size i) |}.

(** The batches among [batches] that the loop commits when run from
    [st]. *)
Fixpoint committed_batches (sv : Services) (foods : list Food)
    (batch_size : nat) (batches : list nat) (st : LoopState) : list nat :=
  match batches with
  | [] => []
  | i :: rest =>
      let (st', outcome) := upload_batch sv foods batch_size i st in
      match outcome with
      | Committed => i :: committed_batches sv foods batch_size rest st'
      | Skipped => committed_batches sv foods batch_size rest st'
      | Failed => []
      end
  end.

(** Batch [i], started in state [st], raises: the embedding request
    fails on its last attempt, or it returns one vector per record and
    the upsert of the batch fails. *)
Definition batch_raises (sv : Services) (foods : list Food)
    (batch_size i : nat) (st : LoopState) : Prop :=
  let batch := batch_of foods batch_size i in
  let (w, response) :=
    generate_embeddings sv (map embedding_text batch) (world st) in
  match response with
  | None => True
  | Some embeddings =>
      length embeddings = length batch ∧
      upsert_execute sv (length (upsert_calls w))
        (zip_with upload_row batch embeddings) = false
  end.

(** Batch [i], started in state [st], gets a number of vectors that
    differs from its size. *)
Definition batch_mismatch (sv : Services) (foods : list Food)
    (batch_size i : nat) (st : LoopState) : Prop :=
  let batch := batch_of foods batch_size i in
  ∃ embeddings,
    (generate_embeddings sv (map embedding_text batch) (world st)).2
      = Some embeddings ∧
    length embeddings ≠ length batch.

(** Sample runs. *)
Definition numbered (i : nat) : Food :=
  {| external_id := pretty (Z.of_nat i); name := "Food"; description := "Food";
     brand := None; category := "Unknown";
     calories_per_100g := 100; protein_per_100g := 1; fat_per_100g := 1;
     carbs_per_100g := 1; fiber_per_100g := 1; sugar_per_100g := 1;
     sodium_per_100g := 1; data_source := "usda";
     nutrients := CleanerSpec.no_nutrients;
     embedding_text := "food unknown low calorie" |}.

Definition numbered_ids (first count : nat) : list string :=
  map (λ i, pretty (Z.of_nat i)) (seq first count).

Definition fresh_world : World :=
  {| progress_file := None; embedding_requests := [];
     upsert_calls := []; upserted := [] |}.

Definition vectors_for (texts : list string) : list Embedding :=
  map (λ _, [0%Q]) texts.

(** An empty remote table, an embedding service that answers its first
    [ok] requests and then fails, and an upsert that succeeds. *)
Definition failing_after (ok : nat) : Services :=
  {| select_page := λ _, Some [];
     embeddings_create := λ n texts,
       if (n <? ok)%nat then Some (vectors_for texts) else None;
     upsert_execute := λ _ _, true;
     write_progress := λ _, Written |}.

(** As [failing_after 2], but the first request gets one vector too
    few. *)
Definition short_then_failing : Services :=
  {| select_page := λ _, Some [];
     embeddings_create := λ n texts,
       match n with
       | 0 => Some (vectors_for (tail texts))
       | 1 => Some (vectors_for texts)
       | _ => None
       end;
     upsert_execute := λ _ _, true;
     write_progress := λ _, Written |}.

(** A remote table holding [ids] on its first page, and collaborators
    that never fail. *)
Definition healthy (ids : list string) : Services :=
  {| select_page := λ offset, if (offset =? 0)%nat then Some ids else Some [];
     embeddings_create := λ _ texts, Some (vectors_for texts);
     upsert_execute := λ _ _, true;
     write_progress := λ _, Written |}.

(** A remote table of 1002 rows read in two pages. *)
Definition two_pages : Services :=
  {| select_page := λ offset,
       if (offset =? 0)%nat then Some (numbered_ids 1 1000)
       else if (offset =? 1000)%nat then Some (numbered_ids 1001 2)
       else Some [];
     embeddings_create := λ _ texts, Some (vectors_for texts);
     upsert_execute := λ _ _, true;
     write_progress := λ _, Written |}.

(** The collaborators of [sv] on a file system where no write of the
    progress file succeeds: the file stays as it was. *)
Definition with_stale_writes (sv : Services) : Services :=
  {| select_page := select_page sv;
     embeddings_create := embeddings_create sv;
     upsert_execute := upsert_execute sv;
     write_progress := λ _, Stale |}.

(** The contents of the progress file after the loop committed the
    batches [done] in turn, from the ledger [p] and the contents [file]:
    every commit attempts one write of the new ledger. *)
Fixpoint persisted_file (sv : Services) (foods : list Food) (batch_size : nat)
    (p : Progress) (file : option Progress) (done : list nat)
    : option Progress :=
  match done with
  | [] => file
  | i :: rest =>
      let p' := commit_batch foods batch_size p i in
      persisted_file sv foods batch_size p' (write_file sv p' file) rest
  end.

(** The ids that the upserts accepted so far carry. *)
Definition upserted_ids (w : World) : list string :=
  map row_external_id (concat (upserted w)).

(** The records numbered [1] to [count]. *)
Definition numbered_foods (count : nat) : list Food :=
  map numbered (seq 1 count).

(** The world a run of [main] leaves and the way it ends. *)
Definition world_after (run : option (World * MainResult)) : World :=
  match run with
  | Some (w, _) => w
  | None => fresh_world
  end.

Definition result_of (run : option (World * MainResult)) : option MainResult :=
  option_map snd run.

(** A first run over 120 new records that loses the embedding service
    after two batches, and the rerun of the same command once 100
    records are in the table and the service is back. *)
Definition interrupted_run : option (World * MainResult) :=
  main (failing_after 2) (numbered_foods 120) None "y" 1 fresh_world.

Definition resumed_run : option (World * MainResult) :=
  main (healthy (numbered_ids 1 100)) (numbered_foods 120) None "y" 1
    (world_after interrupted_run).

(** A first run over 150 new records whose first batch gets 49 vectors,
    whose second batch commits and whose third batch fails, and the
    rerun of the same command with the service back. *)
Definition mismatch_run : option (World * MainResult) :=
  main short_then_failing (numbered_foods 150) None "y" 1 fresh_world.

Definition mismatch_rerun : option (World * MainResult) :=
  main (healthy (numbered_ids 51 50)) (numbered_foods 150) None "y" 1
    (world_after mismatch_run).

End UploaderSpec.

(** ** Further specification-side definitions *)

Module PipelineSpec.

Import PyStr PyNum Cleaner Uploader UploaderSpec.
Local Open Scope list_scope.

(** A string that does not start with a whitespace character. *)
Definition clean_start (s : string) : Prop :=
  match s with
  | EmptyString => True
  | String c _ => is_space c = false
  end.

(** The title-cased brand names [extract_brand] can return. *)
Definition brand_titles : list string :=
  ["Pillsbury"; "Sabra"; "Tribe"; "Kellogg"; "General Mills"; "Kraft";
   "Pepsi"; "Coca Cola"; "Mcdonald"; "Burger King"; "Subway"].

(** The tags [create_embedding_text] can append after the name and the
    category. *)
Definition tag_vocabulary : list string :=
  ["very low calorie"; "low calorie"; "moderate calorie"; "high calorie";
   "very high calorie";
   "very high protein"; "high protein"; "moderate protein"; "some protein";
   "low protein";
   "low fat"; "moderate fat"; "high fat";
   "very low carb keto friendly"; "low carb"; "moderate carb"; "high carb";
   "very high fiber"; "high fiber";
   "high sugar sweet"; "sugar free";
   "high sodium salty"; "low sodium";
   "lean protein snack"; "ketogenic food"; "filling low calorie"].

(** The sugar value [clean_food_data] keeps before rounding: the amount
    under id 1063, or the one under id 2000 when the former is zero. *)
Definition sugar_of (nutrients : list NutrientEntry) : Q :=
  if is_zero (get_nutrient nutrients NUTRIENT_IDS.SUGAR)
  then get_nutrient nutrients 2000
  else get_nutrient nutrients NUTRIENT_IDS.SUGAR.

(** A remote table holding the rows [rows], read by range queries: the
    query at [offset] returns rows [offset] to [offset + page_size - 1].
    The other collaborators are those of [sv]. *)
Definition table_services (rows : list string) (sv : Services) : Services :=
  {| select_page := λ offset, Some (py_slice rows offset (offset + page_size));
     embeddings_create := embeddings_create sv;
     upsert_execute := upsert_execute sv;
     write_progress := write_progress sv |}.

(** Collaborators that never fail: every embedding request returns one
    vector per text and every upsert succeeds. *)
Definition well_behaved (sv : Services) : Prop :=
  (∀ n texts, ∃ vectors,
     embeddings_create sv n texts = Some vectors ∧
     length vectors = length texts) ∧
  (∀ n rows, upsert_execute sv n rows = true).

(** [rows] is the payload built from batch [i] and some embeddings, one
    per record. *)
Definition payload_for (foods : list Food) (batch_size i : nat)
    (rows : list UploadRow) : Prop :=
  ∃ embeddings,
    length embeddings = length (batch_of foods batch_size i) ∧
    rows = zip_with upload_row (batch_of foods batch_size i) embeddings.

(** The ids of a list of payloads. *)
Definition payload_ids (payloads : list (list UploadRow)) : list string :=
  map row_external_id (concat payloads).

Definition two_entries : list NutrientEntry :=
  [ {| nutrient_id := Some NUTRIENT_IDS.ENERGY_KCAL; amount := Some 52%Q |};
    {| nutrient_id := Some NUTRIENT_IDS.SUGAR; amount := Some 0%Q |};
    {| nutrient_id := Some 2000%Z; amount := Some (104 # 10)%Q |};
    {| nutrient_id := Some NUTRIENT_IDS.ENERGY_KCAL; amount := Some 99%Q |} ].

Definition ledger_world (p : Progress) : World :=
  {| progress_file := Some p; embedding_requests := [];
     upsert_calls := []; upserted := [] |}.

End PipelineSpec.

(** ** Properties of the normalizer *)

Section CleanerProofs.

Import PyStr PyNum Cleaner CleanerSpec.
Local Open Scope list_scope.

(** *** The primitives on sample values *)

Example title_two_words : title "GENERAL MILLS" = "General Mills".
Proof. reflexivity. Qed.

Example strip_both_ends : strip "  Hummus, commercial " = "Hummus, commercial".
Proof. reflexivity. Qed.

Example strip_blank : strip "   " = "".
Proof. reflexivity. Qed.

Example contains_inside : contains "KRAFT" (upper "Cheese, Kraft singles") = true.
Proof. reflexivity. Qed.

Example extract_brand_found :
  extract_brand "Hummus, Sabra classic" = Some "Sabra".
Proof. reflexivity. Qed.

Example extract_brand_none : extract_brand "Apples, raw" = None.
Proof. reflexivity. Qed.

Example round2_down : Qeq_bool (round2 (12344 # 1000)) (1234 # 100) = true.
Proof. reflexivity. Qed.

Example round2_tie_to_even : Qeq_bool (round2 (125 # 1000)) (12 # 100) = true.
Proof. reflexivity. Qed.

Example get_nutrient_missing : Qeq_bool (get_nutrient [energy 52] 1003) 0 = true.
Proof. reflexivity. Qed.

Example join_parts : join " " ["apple"; "fruits"; "low calorie"] = "apple fruits low calorie".
Proof. reflexivity. Qed.

Example create_embedding_text_sample :
  create_embedding_text (sample "Apple" 52 0)
    = "apple fruits low calorie low protein low fat low carb low sodium".
Proof. reflexivity. Qed.

(** *** The parts list, block by block *)

Lemma if_app_both {A} (b : bool) (p l1 l2 : list A) :
  (if b then p ++ l1 else p ++ l2) = p ++ (if b then l1 else l2).
Proof. by destruct b. Qed.

Lemma if_app_left {A} (b : bool) (p l1 : list A) :
  (if b then p ++ l1 else p) = p ++ (if b then l1 else []).
Proof. destruct b; [done | by rewrite app_nil_r]. Qed.

Ltac hoist := repeat first [rewrite if_app_both | rewrite if_app_left].

(* Replace the value bound by the head [let] of the left-hand side by
   [parts ++ tags], then substitute it. *)
Ltac step_block tags :=
  lazymatch goal with
  | |- (let x := ?v in @?body x) = ?r =>
      let H := fresh "H" in
      eassert (H : v = _ ++ tags) by (cbv beta delta [calorie_tags protein_tags fat_tags carb_tags fiber_tags
             sugar_tags sodium_tags lean_tags keto_tags filling_tags];
          hoist; reflexivity);
      etransitivity; [exact (f_equal body H) | clear H; cbv beta]
  end.

Ltac step_let :=
  lazymatch goal with
  | |- (let x := ?v in @?body x) = ?r => change (body v = r); cbv beta
  end.

Lemma embedding_parts_tags (food : Food) :
  embedding_parts food =
    [lower (name food); lower (category food)]
    ++ calorie_tags (calories_per_100g food)
    ++ protein_tags (protein_per_100g food)
    ++ fat_tags (fat_per_100g food)
    ++ carb_tags (carbs_per_100g food)
    ++ fiber_tags (fiber_per_100g food)
    ++ sugar_tags (sugar_per_100g food)
    ++ sodium_tags (sodium_per_100g food)
    ++ lean_tags (protein_per_100g food) (calories_per_100g food)
    ++ keto_tags (fat_per_100g food) (carbs_per_100g food)
    ++ filling_tags (fiber_per_100g food) (calories_per_100g food).
Proof.
  cbv beta delta [embedding_parts].
  step_let. step_let. step_block (calorie_tags (calories_per_100g food)).
  step_let. step_block (protein_tags (protein_per_100g food)).
  step_let. step_block (fat_tags (fat_per_100g food)).
  step_let. step_block (carb_tags (carbs_per_100g food)).
  step_block (fiber_tags (fiber_per_100g food)).
  step_block (sugar_tags (sugar_per_100g food)).
  step_block (sodium_tags (sodium_per_100g food)).
  step_block (lean_tags (protein_per_100g food) (calories_per_100g food)).
  step_block (keto_tags (fat_per_100g food) (carbs_per_100g food)).
  step_block (filling_tags (fiber_per_100g food) (calories_per_100g food)).
  by rewrite <- !app_assoc.
Qed.


Lemma Qle_bool_cases (x y : Q) :
  (Qle_bool x y = true ∧ x <= y)%Q ∨ (Qle_bool x y = false ∧ y < x)%Q.
Proof.
  destruct (Qle_bool x y) eqn:E.
  - left. split; [done | by apply Qle_bool_iff].
  - right. split; [done |]. apply Qnot_le_lt. intros H.
    apply Qle_bool_iff in H. congruence.
Qed.

Lemma Qle_bool_same (x y x' y' : Q) :
  (x <= y ↔ x' <= y')%Q → Qle_bool x y = Qle_bool x' y'.
Proof.
  intros H. destruct (Qle_bool x y) eqn:E1, (Qle_bool x' y') eqn:E2; try done.
  - apply Qle_bool_iff, H, Qle_bool_iff in E1. congruence.
  - apply Qle_bool_iff, H, Qle_bool_iff in E2. congruence.
Qed.

Lemma Qle_bool_and_same (x y z t x' y' z' t' : Q) :
  (x <= y ∧ z <= t ↔ x' <= y' ∧ z' <= t')%Q →
  Qle_bool x y && Qle_bool z t = Qle_bool x' y' && Qle_bool z' t'.
Proof.
  intros H.
  destruct (Qle_bool x y && Qle_bool z t) eqn:E1,
           (Qle_bool x' y' && Qle_bool z' t') eqn:E2; try done.
  - apply andb_true_iff in E1 as [H1 H2].
    apply Qle_bool_iff in H1, H2. destruct H as [H _].
    destruct (H (conj H1 H2)) as [H3 H4].
    apply Qle_bool_iff in H3, H4. rewrite H3, H4 in E2. done.
  - apply andb_true_iff in E2 as [H1 H2].
    apply Qle_bool_iff in H1, H2. destruct H as [_ H].
    destruct (H (conj H1 H2)) as [H3 H4].
    apply Qle_bool_iff in H3, H4. rewrite H3, H4 in E1. done.
Qed.

Ltac bucket_cases :=
  repeat match goal with
  | |- context [Qle_bool ?x ?y] =>
      let E := fresh "E" in let H := fresh "H" in
      destruct (Qle_bool_cases x y) as [[E H] | [E H]]; rewrite E
  end.

Lemma calorie_tags_rule (c : Q) : calorie_rule c (calorie_tags c).
Proof. unfold calorie_rule, calorie_tags. bucket_cases; tauto. Qed.

Lemma protein_tags_rule (p : Q) : protein_rule p (protein_tags p).
Proof. unfold protein_rule, protein_tags. bucket_cases; tauto. Qed.

Lemma fat_tags_rule (f : Q) : fat_rule f (fat_tags f).
Proof. unfold fat_rule, fat_tags. bucket_cases; tauto. Qed.

Lemma carb_tags_rule (c : Q) : carb_rule c (carb_tags c).
Proof. unfold carb_rule, carb_tags. bucket_cases; tauto. Qed.

Lemma fiber_tags_rule (f : Q) : fiber_rule f (fiber_tags f).
Proof. unfold fiber_rule, fiber_tags. bucket_cases; tauto. Qed.

Lemma sugar_tags_rule (s : Q) : sugar_rule s (sugar_tags s).
Proof.
  unfold sugar_rule, sugar_tags. bucket_cases; try tauto.
Qed.

Lemma sodium_tags_rule (s : Q) : sodium_rule s (sodium_tags s).
Proof. unfold sodium_rule, sodium_tags. bucket_cases; tauto. Qed.

Lemma composite_tags_rule (x y z t : Q) (tag : string) :
  composite_rule (x <= y ∧ z <= t)%Q tag
    (if Qle_bool x y && Qle_bool z t then [tag] else []).
Proof.
  unfold composite_rule. bucket_cases; simpl; try tauto.
  - right. split; [|done]. intros [_ H']. by apply Qle_not_lt in H'.
  - right. split; [|done]. intros [H' _]. by apply Qle_not_lt in H'.
  - right. split; [|done]. intros [H' _]. by apply Qle_not_lt in H'.
Qed.


Lemma same_buckets_refl_numbers (a b : Food) :
  calories_per_100g a = calories_per_100g b →
  protein_per_100g a = protein_per_100g b →
  fat_per_100g a = fat_per_100g b →
  carbs_per_100g a = carbs_per_100g b →
  fiber_per_100g a = fiber_per_100g b →
  sugar_per_100g a = sugar_per_100g b →
  sodium_per_100g a = sodium_per_100g b →
  same_buckets a b.
Proof.
  intros H1 H2 H3 H4 H5 H6 H7.
  split; unfold same_le, same_ge; rewrite ?H1, ?H2, ?H3, ?H4, ?H5, ?H6, ?H7;
    repeat constructor; tauto.
Qed.

(** C4, as stated, fails: two records with the same numbers, hence in
    the same bucket of every rule, get different texts when their names
    differ. *)
Lemma embedding_text_depends_on_name :
  same_buckets (sample "Apple" 52 0) (sample "Pear" 52 0) ∧
  create_embedding_text (sample "Apple" 52 0)
    ≠ create_embedding_text (sample "Pear" 52 0).
Proof.
  split.
  - by apply same_buckets_refl_numbers.
  - vm_compute. discriminate.
Qed.

(** C4, amended: two records with the same lower-cased name and category
    that fall in the same bucket of every threshold rule (calorie,
    protein, fat, carb, fiber, sugar, sodium and the three composite
    tags) have the same embedding text, whatever their exact numbers. *)
Theorem embedding_text_same_buckets (a b : Food) :
  lower (name a) = lower (name b) →
  lower (category a) = lower (category b) →
  same_buckets a b →
  create_embedding_text a = create_embedding_text b.
Proof.
  intros Hname Hcat [Hcal Hprot Hfat Hcarb Hfib [Hs1 Hs2] [Hn1 Hn2] Hlean Hketo Hfill].
  unfold create_embedding_text. f_equal.
  rewrite !embedding_parts_tags, Hname, Hcat.
  repeat match goal with
  | H : Forall _ (_ :: _) |- _ => apply Forall_cons in H as [? H]
  end.
  unfold same_le, same_ge in *.
  unfold calorie_tags, protein_tags, fat_tags, carb_tags, fiber_tags,
    sugar_tags, sodium_tags, lean_tags, keto_tags, filling_tags.
  rewrite (Qle_bool_and_same _ _ _ _ _ _ _ _ Hlean),
    (Qle_bool_and_same _ _ _ _ _ _ _ _ Hketo),
    (Qle_bool_and_same _ _ _ _ _ _ _ _ Hfill).
  repeat match goal with
  | H : (_ <= _ ↔ _ <= _)%Q |- _ => rewrite (Qle_bool_same _ _ _ _ H); clear H
  end.
  reflexivity.
Qed.

Lemma same_le_intro (t x y : Q) :
  Qle_bool x t = Qle_bool y t → same_le t x y.
Proof. unfold same_le. intros H. by rewrite <- !Qle_bool_iff, H. Qed.

Lemma same_ge_intro (t x y : Q) :
  Qle_bool t x = Qle_bool t y → same_ge t x y.
Proof. unfold same_ge. intros H. by rewrite <- !Qle_bool_iff, H. Qed.

Lemma same_and_intro (x y z t x' y' z' t' : Q) :
  Qle_bool x y && Qle_bool z t = Qle_bool x' y' && Qle_bool z' t' →
  (x <= y ∧ z <= t ↔ x' <= y' ∧ z' <= t')%Q.
Proof.
  intros H. rewrite <- !Qle_bool_iff, <- !andb_true_iff. by rewrite H.
Qed.

Lemma embedding_text_same_buckets_witness :
  create_embedding_text (sample "Apple" 52 0)
    = create_embedding_text (sample "APPLE" (5749 # 100) (1 # 2)).
Proof.
  apply embedding_text_same_buckets; [reflexivity | reflexivity |].
  split;
    repeat match goal with
    | |- Forall _ _ => constructor
    | |- _ ∧ _ => split
    end;
    first [apply same_le_intro | apply same_ge_intro | apply same_and_intro];
    reflexivity.
Defined.

(** The tags of the rules other than the calorie rule are never calorie
    tags. *)
Lemma other_tags_not_calorie (food : Food) :
  Forall (λ t, t ≠ "very low calorie" ∧ t ≠ "low calorie")
    (protein_tags (protein_per_100g food)
     ++ fat_tags (fat_per_100g food)
     ++ carb_tags (carbs_per_100g food)
     ++ fiber_tags (fiber_per_100g food)
     ++ sugar_tags (sugar_per_100g food)
     ++ sodium_tags (sodium_per_100g food)
     ++ lean_tags (protein_per_100g food) (calories_per_100g food)
     ++ keto_tags (fat_per_100g food) (carbs_per_100g food)
     ++ filling_tags (fiber_per_100g food) (calories_per_100g food)).
Proof.
  rewrite !Forall_app.
  unfold protein_tags, fat_tags, carb_tags, fiber_tags, sugar_tags,
    sodium_tags, lean_tags, keto_tags, filling_tags.
  split_and!;
    repeat match goal with
    | |- context [Qle_bool ?x ?y] => destruct (Qle_bool x y)
    end;
    cbn [andb]; repeat constructor; discriminate.
Qed.

(** C5: [create_embedding_text] joins the lower-cased name, the
    lower-cased category and the tags of every bucket rule, each rule
    with its thresholds inclusive or exclusive as stated; in particular
    at 50 kcal the text carries "very low calorie" and not "low
    calorie", at 50.01 kcal it carries "low calorie", and at 20 g of
    protein it carries "very high protein". *)
Theorem bucket_boundaries (food : Food) :
  (∃ cal prot fat carb fiber sugar sodium lean keto filling,
     create_embedding_text food =
       join " " ([lower (name food); lower (category food)]
                 ++ cal ++ prot ++ fat ++ carb ++ fiber ++ sugar ++ sodium
                 ++ lean ++ keto ++ filling) ∧
     embedding_parts food =
       [lower (name food); lower (category food)]
       ++ cal ++ prot ++ fat ++ carb ++ fiber ++ sugar ++ sodium
       ++ lean ++ keto ++ filling ∧
     calorie_rule (calories_per_100g food) cal ∧
     protein_rule (protein_per_100g food) prot ∧
     fat_rule (fat_per_100g food) fat ∧
     carb_rule (carbs_per_100g food) carb ∧
     fiber_rule (fiber_per_100g food) fiber ∧
     sugar_rule (sugar_per_100g food) sugar ∧
     sodium_rule (sodium_per_100g food) sodium ∧
     composite_rule
       (15 <= protein_per_100g food ∧ calories_per_100g food <= 200)%Q
       "lean protein snack" lean ∧
     composite_rule
       (15 <= fat_per_100g food ∧ carbs_per_100g food <= 10)%Q
       "ketogenic food" keto ∧
     composite_rule
       (5 <= fiber_per_100g food ∧ calories_per_100g food <= 150)%Q
       "filling low calorie" filling) ∧
  ((calories_per_100g food == 50)%Q →
     embedding_parts food !! 2%nat = Some "very low calorie" ∧
     ∃ rest,
       create_embedding_text food =
         join " " (lower (name food) :: lower (category food)
                   :: "very low calorie" :: rest) ∧
       "low calorie" ∉ rest) ∧
  ((calories_per_100g food == 5001 # 100)%Q →
     embedding_parts food !! 2%nat = Some "low calorie" ∧
     ∃ rest,
       create_embedding_text food =
         join " " (lower (name food) :: lower (category food)
                   :: "low calorie" :: rest) ∧
       "very low calorie" ∉ rest) ∧
  ((protein_per_100g food == 20)%Q →
     embedding_parts food !! 3%nat = Some "very high protein" ∧
     ∃ cal rest,
       create_embedding_text food =
         join " " (lower (name food) :: lower (category food)
                   :: cal :: "very high protein" :: rest)).
Proof.
  pose proof (other_tags_not_calorie food) as Hother.
  unfold create_embedding_text.
  split; [| split; [| split]].
  - do 10 eexists. split; [by rewrite embedding_parts_tags |].
    split; [apply embedding_parts_tags |].
    repeat split;
      auto using calorie_tags_rule, protein_tags_rule, fat_tags_rule,
        carb_tags_rule, fiber_tags_rule, sugar_tags_rule, sodium_tags_rule;
      apply composite_tags_rule.
  - intros H. rewrite embedding_parts_tags.
    destruct (calorie_tags_rule (calories_per_100g food))
      as [[_ ->] | [[H' _] | [[H' _] | [[H' _] | [H' _]]]]];
      [| exfalso; rewrite H in H'; by vm_compute in H' ..].
    split; [done |]. eexists. split; [reflexivity |].
    intros Hin. rewrite Forall_forall in Hother.
    by destruct (Hother _ Hin).
  - intros H. rewrite embedding_parts_tags.
    destruct (calorie_tags_rule (calories_per_100g food))
      as [[H' _] | [(_ & _ & ->) | [(H' & _) | [(H' & _) | [H' _]]]]];
      [exfalso; rewrite H in H'; by vm_compute in H' | | 
       exfalso; rewrite H in H'; by vm_compute in H' ..].
    split; [done |]. eexists. split; [reflexivity |].
    intros Hin. rewrite Forall_forall in Hother.
    by destruct (Hother _ Hin).
  - intros H. rewrite embedding_parts_tags.
    destruct (calorie_tags_rule (calories_per_100g food))
      as [[_ ->] | [(_ & _ & ->) | [(_ & _ & ->) | [(_ & _ & ->) | [_ ->]]]]];
    (destruct (protein_tags_rule (protein_per_100g food))
      as [[_ ->] | [(_ & H' & _) | [(_ & H' & _) | [(_ & H' & _) | [H' _]]]]];
      [| exfalso; rewrite H in H'; by vm_compute in H' ..]);
    (split; [done |]; do 2 eexists; reflexivity).
Qed.

Lemma bucket_boundaries_witness :
  (∃ rest,
     create_embedding_text (sample "Apple" 50 20)
       = join " " ("apple" :: "fruits" :: "very low calorie" :: rest) ∧
     "low calorie" ∉ rest) ∧
  (∃ rest,
     create_embedding_text (sample "Apple" (5001 # 100) 20)
       = join " " ("apple" :: "fruits" :: "low calorie" :: rest) ∧
     "very low calorie" ∉ rest) ∧
  (∃ cal rest,
     create_embedding_text (sample "Apple" 50 20)
       = join " " ("apple" :: "fruits" :: cal :: "very high protein" :: rest)).
Proof.
  split; [| split].
  - apply (bucket_boundaries (sample "Apple" 50 20)). reflexivity.
  - apply (bucket_boundaries (sample "Apple" (5001 # 100) 20)). reflexivity.
  - apply (bucket_boundaries (sample "Apple" 50 20)). reflexivity.
Defined.

Lemma truthy_false (s : string) : truthy s = false ↔ s = "".
Proof. by destruct s. Qed.

Lemma is_zero_true (x : Q) : is_zero x = true ↔ (x == 0)%Q.
Proof. apply Qeq_bool_iff. Qed.

(** C6, as stated, fails: a description of two spaces is neither absent
    nor empty, the record has a nutrient entry and 100 kcal, and yet it
    is rejected. *)
Lemma blank_description_rejected :
  clean_food_data (raw_sample (Some "  ") [energy 100]) = None ∧
  ¬ claimed_rejection (raw_sample (Some "  ") [energy 100]).
Proof.
  split; [reflexivity |].
  unfold claimed_rejection. simpl. intros [[H | H] | [H | H]]; try discriminate.
Qed.

(** C6, amended: [clean_food_data] returns no record exactly when the
    description is absent, empty or blank (empty once stripped of
    whitespace), when the record has no nutrient entry, or when the
    derived calorie value is exactly zero; every other raw record gives
    a canonical record. *)
Theorem clean_food_data_rejection (raw_food : RawFood) :
  clean_food_data raw_food = None ↔ rejection raw_food.
Proof.
  unfold clean_food_data, rejection.
  destruct (raw_description raw_food) as [d |]; [| tauto].
  destruct (truthy d) eqn:Hd; simpl.
  2:{ apply truthy_false in Hd. subst d. split; [by left | done]. }
  destruct (default [] (foodNutrients raw_food)) as [| entry entries] eqn:Hn.
  { split; [by right; left | done]. }
  remember (entry :: entries) as nutrients eqn:Hcons.
  destruct (truthy (strip d)) eqn:Hs; simpl.
  - destruct (is_zero (get_nutrient nutrients NUTRIENT_IDS.ENERGY_KCAL)) eqn:Hz.
    + apply is_zero_true in Hz. split; [by right; right | done].
    + split; [done |]. intros [H | [H | H]].
      * apply truthy_false in H. congruence.
      * congruence.
      * apply is_zero_true in H. congruence.
  - apply truthy_false in Hs. split; [by left | done].
Qed.

(** C8: a record returned by [clean_food_data] has its description equal
    to its name, which is the stripped raw description; its data source
    is 'usda'; and its category is 'Unknown' when the raw record carries
    no food category (or one without a description), the category's
    description otherwise. *)
Theorem clean_food_data_fields (raw_food : RawFood) (food : Food) :
  clean_food_data raw_food = Some food →
  description food = name food ∧
  (∃ d, raw_description raw_food = Some d ∧ name food = strip d) ∧
  data_source food = "usda" ∧
  (foodCategory raw_food = None → category food = "Unknown") ∧
  (∀ c, foodCategory raw_food = Some c →
        category food = default "Unknown" (category_description c)).
Proof.
  unfold clean_food_data.
  destruct (raw_description raw_food) as [d |]; [| done].
  destruct (negb (truthy d)); [done |].
  destruct (default [] (foodNutrients raw_food)) as [| entry entries]; [done |].
  destruct (_ || _); [done |].
  intros [= <-]. simpl. repeat split.
  - by exists d.
  - by intros ->.
  - by intros c ->.
Qed.

Lemma clean_food_data_fields_witness :
  ∃ food,
    clean_food_data (raw_sample (Some " Apples, raw ") [energy 52]) = Some food ∧
    description food = "Apples, raw" ∧ name food = "Apples, raw" ∧
    data_source food = "usda" ∧ category food = "Unknown".
Proof.
  eexists. split; [reflexivity |].
  edestruct (clean_food_data_fields
               (raw_sample (Some " Apples, raw ") [energy 52]))
    as (H1 & (d & [= <-] & H2) & H3 & H4 & _); [reflexivity |].
  rewrite H1, H2, H3, H4 by reflexivity. done.
Defined.

Lemma omap_cons_Some {A B} (f : A → option B) (x : A) (l : list A) (y : B) :
  f x = Some y → omap f (x :: l) = y :: omap f l.
Proof. intros H. simpl. by rewrite H. Qed.

Lemma omap_cons_None {A B} (f : A → option B) (x : A) (l : list A) :
  f x = None → omap f (x :: l) = omap f l.
Proof. intros H. simpl. by rewrite H. Qed.

Lemma clean_loop_unlimited (limit : option Z) (foods : list RawFood)
    (cleaned_foods : list Food) (skipped : nat) :
  limit_set limit = false →
  (clean_loop limit foods cleaned_foods skipped).1
    = cleaned_foods ++ omap clean_food_data foods ∧
  (clean_loop limit foods cleaned_foods skipped).2
    + length (omap clean_food_data foods) = skipped + length foods.
Proof.
  intros Hl. revert cleaned_foods skipped.
  induction foods as [| food rest IH]; intros cleaned_foods skipped.
  - simpl. rewrite app_nil_r. split; [done | lia].
  - cbn [clean_loop]. rewrite Hl. cbn [andb].
    destruct (clean_food_data food) as [clean_food |] eqn:Hc.
    + rewrite (omap_cons_Some _ _ _ _ Hc).
      destruct (IH (cleaned_foods ++ [clean_food]) skipped) as [-> H].
      rewrite <- app_assoc. cbn [app length]. split; [done | lia].
    + rewrite (omap_cons_None _ _ _ Hc).
      destruct (IH cleaned_foods (S skipped)) as [-> H].
      cbn [length]. split; [done | lia].
Qed.

Lemma clean_loop_limit_falsy (limit : option Z) (foods : list RawFood)
    (cleaned_foods : list Food) (skipped : nat) :
  limit_set limit = false →
  clean_loop limit foods cleaned_foods skipped
    = clean_loop None foods cleaned_foods skipped.
Proof.
  intros Hl. revert cleaned_foods skipped.
  induction foods as [| food rest IH]; intros cleaned_foods skipped; simpl;
    [done |].
  rewrite Hl. simpl. destruct (clean_food_data food); apply IH.
Qed.


(** C10: a limit of 0 disables limiting.  The cleaning loop with limit 0
    behaves as with no limit and cleans every raw record of the input;
    the uploader's [--limit 0] keeps the whole input, and [main] runs as
    without the flag. *)
Theorem limit_zero_disables_limiting :
  (∀ foods : list RawFood,
     process_usda_json foods (Some 0%Z) = process_usda_json foods None ∧
     (process_usda_json foods (Some 0%Z)).1 = omap clean_food_data foods ∧
     (process_usda_json foods (Some 0%Z)).2
       + length (omap clean_food_data foods) = length foods) ∧
  (∀ all_foods : list Food,
     Uploader.apply_limit (Some 0%Z) all_foods = all_foods) ∧
  (∀ sv all_foods confirm fuel w,
     Uploader.main sv all_foods (Some 0%Z) confirm fuel w
       = Uploader.main sv all_foods None confirm fuel w).
Proof.
  split; [| split].
  - intros foods. unfold process_usda_json. split; [| split].
    + by apply clean_loop_limit_falsy.
    + by apply (clean_loop_unlimited (Some 0%Z) foods [] 0).
    + by apply (clean_loop_unlimited (Some 0%Z) foods [] 0).
  - done.
  - done.
Qed.

End CleanerProofs.

(** ** Properties of the uploader *)

Section UploaderProofs.

Import Cleaner Uploader UploaderSpec.
Local Open Scope list_scope.
Local Open Scope nat_scope.

(** *** The primitives on sample values *)

Example py_slice_inside : py_slice [1; 2; 3; 4; 5] 2 4 = [3; 4].
Proof. reflexivity. Qed.

Example py_slice_to_negative : py_slice_to [1; 2; 3; 4; 5] (-2) = [1; 2; 3].
Proof. reflexivity. Qed.

Example batch_range_fresh : batch_range (numbered_foods 5) 2 0 = [0; 1; 2].
Proof. reflexivity. Qed.

Example batch_range_past_end : batch_range (numbered_foods 5) 2 4 = [].
Proof. reflexivity. Qed.

Example last_batch_is_short :
  map external_id (batch_of (numbered_foods 5) 2 2) = ["5"].
Proof. reflexivity. Qed.

Example apply_limit_two :
  map external_id (apply_limit (Some 2%Z) (numbered_foods 5)) = ["1"; "2"].
Proof. reflexivity. Qed.

(** *** The new-work filter *)

Lemma filter_loop_filter (foods : list Food) (existing_ids uploaded : gset string)
    (new_foods : list Food) :
  filter_loop foods existing_ids uploaded new_foods
    = new_foods
      ++ filter (λ food, (external_id food ∉ existing_ids) ∧
                         (external_id food ∉ uploaded)) foods.
Proof.
  revert new_foods. induction foods as [| food rest IH]; intros new_foods.
  - simpl. by rewrite app_nil_r.
  - cbn [filter_loop]. rewrite filter_cons.
    destruct (decide ((external_id food ∉ existing_ids) ∧
                      (external_id food ∉ uploaded))) as [[H1 H2] | H].
    + rewrite !bool_decide_true by done. cbn [andb].
      rewrite IH, <- app_assoc. done.
    + rewrite IH.
      destruct (bool_decide (external_id food ∉ existing_ids)) eqn:E1;
        destruct (bool_decide (external_id food ∉ uploaded)) eqn:E2;
        cbn [andb]; try done.
      apply bool_decide_eq_true in E1, E2. tauto.
Qed.

(** C9: [filter_new_foods] returns exactly the input records whose id is
    neither in the existing-ids set nor in the ledger's uploaded list,
    in the input's order, and leaves the ledger as it was. *)
Theorem filter_new_foods_spec (foods : list Food) (existing_ids : gset string)
    (progress : Progress) :
  (filter_new_foods foods existing_ids progress).1
    = filter (λ food, (external_id food ∉ existing_ids) ∧
                      (external_id food ∉ uploaded_ids progress)) foods ∧
  (∀ food, food ∈ (filter_new_foods foods existing_ids progress).1 ↔
           food ∈ foods ∧ (external_id food ∉ existing_ids) ∧
           (external_id food ∉ uploaded_ids progress)) ∧
  sublist (filter_new_foods foods existing_ids progress).1 foods ∧
  (filter_new_foods foods existing_ids progress).2 = progress.
Proof.
  assert (Heq : (filter_new_foods foods existing_ids progress).1
    = filter (λ food, (external_id food ∉ existing_ids) ∧
                      (external_id food ∉ uploaded_ids progress)) foods).
  { unfold filter_new_foods. cbn [fst]. rewrite filter_loop_filter. cbn [app].
    apply list_filter_iff. intros food. by rewrite elem_of_list_to_set. }
  split; [done |]. rewrite Heq. split; [| split].
  - intros food. rewrite list_elem_of_filter. tauto.
  - apply sublist_filter.
  - done.
Qed.

(** *** The existing-set resolver *)

Lemma fetch_pages_full (sv : Services) (fuel offset : nat) (all_ids : gset string)
    (rows : list string) :
  select_page sv offset = Some rows →
  page_size ≤ length rows →
  fetch_pages sv (S fuel) offset all_ids
    = fetch_pages sv fuel (offset + page_size) (all_ids ∪ list_to_set rows).
Proof.
  intros Hsel Hlen. cbn [fetch_pages]. rewrite Hsel.
  destruct rows as [| row rows']; [simpl in Hlen; unfold page_size in Hlen; lia |].
  destruct (Nat.ltb_spec (length (row :: rows')) page_size); [lia | done].
Qed.

Lemma fetch_pages_prefix (sv : Services) (n fuel : nat) :
  (∀ k, k < n → ∃ rows,
     select_page sv (k * page_size) = Some rows ∧ page_size ≤ length rows) →
  fetch_pages sv (n + fuel) 0 ∅
    = fetch_pages sv fuel (n * page_size) (pages_ids sv n).
Proof.
  revert fuel. induction n as [| n IH]; intros fuel Hfull; [done |].
  replace (S n + fuel) with (n + S fuel) by lia.
  rewrite IH by (intros k Hk; apply Hfull; lia).
  destruct (Hfull n) as (rows & Hsel & Hlen); [lia |].
  rewrite (fetch_pages_full _ _ _ _ rows) by done.
  cbn [pages_ids]. rewrite Hsel. cbn [default].
  by replace (S n * page_size) with (n * page_size + page_size) by lia.
Qed.

(** C7: when the first [n] pages of 1000 rows are full, the resolver is
    still reading after [n] pages; if page [n] then has fewer than 1000
    rows it returns the ids of pages 0 to [n], and if the query for page
    [n] raises it returns the empty set. *)
Theorem existing_ids_paging (sv : Services) (n : nat) :
  (∀ k, k < n → ∃ rows,
     select_page sv (k * page_size) = Some rows ∧ page_size ≤ length rows) →
  page_size = 1000 ∧
  (∀ fuel, fuel ≤ n → get_existing_food_ids sv fuel = None) ∧
  (∀ rows fuel,
     select_page sv (n * page_size) = Some rows → length rows < page_size →
     n < fuel → get_existing_food_ids sv fuel = Some (pages_ids sv (S n))) ∧
  (∀ fuel,
     select_page sv (n * page_size) = None →
     n < fuel → get_existing_food_ids sv fuel = Some ∅).
Proof.
  intros Hfull. split; [done |]. split; [| split].
  - intros fuel Hfuel. unfold get_existing_food_ids.
    replace fuel with (fuel + 0) by lia.
    rewrite fetch_pages_prefix by (intros k Hk; apply Hfull; lia). done.
  - intros rows fuel Hsel Hlen Hfuel. unfold get_existing_food_ids.
    replace fuel with (n + S (fuel - S n)) by lia.
    rewrite fetch_pages_prefix by done.
    cbn [fetch_pages pages_ids]. rewrite Hsel. cbn [default].
    destruct rows as [| row rows'].
    + change (list_to_set (id (@nil string))) with (∅ : gset string).
      by rewrite (right_id_L ∅ (∪)).
    + destruct (Nat.ltb_spec (length (row :: rows')) page_size); [done | lia].
  - intros fuel Hsel Hfuel. unfold get_existing_food_ids.
    replace fuel with (n + S (fuel - S n)) by lia.
    rewrite fetch_pages_prefix by done.
    cbn [fetch_pages]. by rewrite Hsel.
Qed.

Lemma existing_ids_paging_witness :
  get_existing_food_ids two_pages 1 = None ∧
  get_existing_food_ids two_pages 2 = Some (pages_ids two_pages 2).
Proof.
  assert (Hfull : ∀ k, k < 1 → ∃ rows,
            select_page two_pages (k * page_size) = Some rows ∧
            page_size ≤ length rows).
  { intros k Hk. assert (k = 0) as -> by lia.
    eexists. split; [reflexivity | vm_compute; lia]. }
  destruct (existing_ids_paging two_pages 1 Hfull) as (_ & H1 & H2 & _).
  split; [apply H1; lia |].
  apply (H2 (numbered_ids 1001 2)); [reflexivity | vm_compute; lia | lia].
Defined.


(** *** The batch loop *)

Lemma embedding_attempts_frame (sv : Services) (attempts : list nat)
    (texts : list string) (w : World) :
  let w' := (embedding_attempts sv attempts texts w).1 in
  progress_file w' = progress_file w ∧
  upsert_calls w' = upsert_calls w ∧
  upserted w' = upserted w.
Proof.
  revert w. induction attempts as [| attempt rest IH]; intros w; [done |].
  cbn [embedding_attempts].
  destruct (embeddings_create sv _ texts); [done |].
  destruct (attempt <? max_retries - 1); [| done].
  apply (IH {| progress_file := progress_file w;
               embedding_requests := embedding_requests w ++ [texts];
               upsert_calls := upsert_calls w;
               upserted := upserted w |}).
Qed.

Lemma generate_embeddings_frame (sv : Services) (texts : list string)
    (w w' : World) (response : option (list Embedding)) :
  generate_embeddings sv texts w = (w', response) →
  progress_file w' = progress_file w ∧
  upsert_calls w' = upsert_calls w ∧
  upserted w' = upserted w.
Proof.
  intros H. pose proof (embedding_attempts_frame sv (seq 0 max_retries) texts w) as F.
  unfold generate_embeddings in H. rewrite H in F. exact F.
Qed.

(** What one iteration does to the ledger, by outcome. *)
Lemma upload_batch_outcome (sv : Services) (foods : list Food)
    (batch_size i : nat) (st st' : LoopState) (outcome : BatchOutcome) :
  upload_batch sv foods batch_size i st = (st', outcome) →
  uploaded_count st = total_uploaded (progress st) →
  match outcome with
  | Committed =>
      progress st' = commit_batch foods batch_size (progress st) i ∧
      uploaded_count st' = total_uploaded (progress st') ∧
      progress_file (world st')
        = write_file sv (progress st') (progress_file (world st)) ∧
      ¬ batch_raises sv foods batch_size i st
  | Skipped =>
      progress st' = progress st ∧
      uploaded_count st' = uploaded_count st ∧
      progress_file (world st') = progress_file (world st) ∧
      upserted (world st') = upserted (world st) ∧
      upsert_calls (world st') = upsert_calls (world st) ∧
      batch_mismatch sv foods batch_size i st ∧
      ¬ batch_raises sv foods batch_size i st
  | Failed =>
      progress st' = progress st ∧
      uploaded_count st' = uploaded_count st ∧
      progress_file (world st') = progress_file (world st) ∧
      upserted (world st') = upserted (world st) ∧
      batch_raises sv foods batch_size i st
  end.
Proof.
  unfold upload_batch, batch_raises, batch_mismatch.
  destruct (generate_embeddings sv _ (world st)) as [w response] eqn:Hgen.
  destruct (generate_embeddings_frame _ _ _ _ _ Hgen) as (Hfile & Hcalls & Hups).
  destruct response as [embeddings |].
  2:{ intros [= <- <-] _. done. }
  destruct (Nat.eqb_spec (length embeddings) (length (batch_of foods batch_size i)))
    as [Hlen | Hlen]; cbn [negb].
  2:{ intros [= <- <-] _. cbn. repeat split; try done.
      - by exists embeddings.
      - tauto. }
  unfold upsert.
  destruct (upsert_execute sv _ _) eqn:Hup.
  - intros [= <- <-] Hcount. cbn. unfold commit_batch. rewrite Hcount, Hfile.
    repeat split; try done. intros [_ H]. congruence.
  - intros [= <- <-] _. cbn. done.
Qed.

Lemma upload_batch_raises (sv : Services) (foods : list Food)
    (batch_size i : nat) (st : LoopState) :
  uploaded_count st = total_uploaded (progress st) →
  batch_raises sv foods batch_size i st →
  (upload_batch sv foods batch_size i st).2 = Failed.
Proof.
  intros Hcount Hraise.
  destruct (upload_batch sv foods batch_size i st) as [st' outcome] eqn:E.
  pose proof (upload_batch_outcome _ _ _ _ _ _ _ E Hcount) as H.
  destruct outcome; [| | done]; cbn; tauto.
Qed.

Lemma upload_loop_app (sv : Services) (foods : list Food) (batch_size : nat)
    (pre rest : list nat) (st st' : LoopState) :
  upload_loop sv foods batch_size pre st = (st', true) →
  upload_loop sv foods batch_size (pre ++ rest) st
    = upload_loop sv foods batch_size rest st'.
Proof.
  revert st. induction pre as [| i pre IH]; intros st; cbn [upload_loop app].
  - by intros [= ->].
  - destruct (upload_batch sv foods batch_size i st) as [st1 outcome].
    destruct outcome; [apply IH | apply IH | done].
Qed.

(** The ledger after a stretch of the loop that no batch left by the
    handler: the loaded ledger plus the committed batches, each commit
    having attempted one write of the progress file. *)
Lemma upload_loop_ledger (sv : Services) (foods : list Food) (batch_size : nat)
    (pre : list nat) (st st' : LoopState) :
  upload_loop sv foods batch_size pre st = (st', true) →
  uploaded_count st = total_uploaded (progress st) →
  let done := committed_batches sv foods batch_size pre st in
  progress st' = foldl (commit_batch foods batch_size) (progress st) done ∧
  uploaded_count st' = total_uploaded (progress st') ∧
  progress_file (world st')
    = persisted_file sv foods batch_size (progress st)
        (progress_file (world st)) done.
Proof.
  revert st. induction pre as [| i pre IH]; intros st;
    cbn [upload_loop committed_batches].
  - intros [= ->] Hcount. done.
  - destruct (upload_batch sv foods batch_size i st) as [st1 outcome] eqn:E.
    intros Hloop Hcount.
    pose proof (upload_batch_outcome _ _ _ _ _ _ _ E Hcount) as H.
    destruct outcome; [| | done].
    + destruct H as (Hp & Hc & Hf & _).
      destruct (IH st1 Hloop Hc) as (IHp & IHc & IHf).
      cbn [foldl persisted_file]. rewrite <- Hp, <- Hf. done.
    + destruct H as (Hp & Hc & Hf & _).
      assert (Hc1 : uploaded_count st1 = total_uploaded (progress st1))
        by congruence.
      destruct (IH st1 Hloop Hc1) as (IHp & IHc & IHf).
      rewrite <- Hp, <- Hf. done.
Qed.

(** The last commit decides the file when its write succeeds. *)
Lemma persisted_file_last_written (sv : Services) (foods : list Food)
    (batch_size : nat) (p : Progress) (file : option Progress)
    (done : list nat) :
  done ≠ [] →
  write_progress sv (foldl (commit_batch foods batch_size) p done) = Written →
  persisted_file sv foods batch_size p file done
    = Some (foldl (commit_batch foods batch_size) p done).
Proof.
  revert p file. induction done as [| i rest IH]; intros p file Hne Hw;
    [done |].
  cbn [persisted_file foldl] in *. destruct rest as [| j rest'].
  - cbn [persisted_file foldl] in *. unfold write_file. by rewrite Hw.
  - by apply IH.
Qed.

(** C2, as stated, fails: with a progress file that cannot be written,
    batch 0 is committed (its rows are accepted and counted), batch 1
    raises, and the progress file is still absent instead of holding the
    ledger after batch 0. *)
Lemma failed_write_leaves_ledger_behind :
  let sv := with_stale_writes (failing_after 1) in
  let run := batch_upload_foods sv (numbered_foods 5) 2 fresh_world in
  committed_batches sv (numbered_foods 5) 2 [0] (initial_state fresh_world)
    = [0] ∧
  batch_raises sv (numbered_foods 5) 2 1
    (upload_loop sv (numbered_foods 5) 2 [0] (initial_state fresh_world)).1 ∧
  run.2 = 2 ∧
  upserted_ids run.1 = ["1"; "2"] ∧
  progress_file run.1 = None ∧
  progress_file run.1
    ≠ Some (commit_batch (numbered_foods 5) 2 (load_progress fresh_world) 0).
Proof.
  cbn zeta. split_and!; [reflexivity | by vm_compute | reflexivity
                        | reflexivity | reflexivity | discriminate].
Qed.

(** C2, amended: when a batch raises (the embedding request after its
    last attempt, or the upsert), [batch_upload_foods] stops in the
    world that batch left, returns the count uploaded so far, and the
    failed batch changes neither the progress file nor what the remote
    table accepted.  The progress file is untouched by the run when no
    batch was committed before, and it holds the loaded ledger extended
    by exactly the committed batches whenever the write made by the last
    committed batch succeeded ([save_progress] swallows a failed
    write). *)
Theorem failure_keeps_last_committed_ledger (sv : Services) (foods : list Food)
    (batch_size : nat) (w : World) (pre post : list nat) (k : nat)
    (st : LoopState) :
  foods ≠ [] →
  batch_range foods batch_size (last_batch (load_progress w)) = pre ++ k :: post →
  upload_loop sv foods batch_size pre (initial_state w) = (st, true) →
  batch_raises sv foods batch_size k st →
  let done := committed_batches sv foods batch_size pre (initial_state w) in
  let ledger := foldl (commit_batch foods batch_size) (load_progress w) done in
  let w' := world (upload_batch sv foods batch_size k st).1 in
  batch_upload_foods sv foods batch_size w = (w', total_uploaded ledger) ∧
  progress_file w' = progress_file (world st) ∧
  upserted w' = upserted (world st) ∧
  (done = [] → progress_file w' = progress_file w) ∧
  (done ≠ [] → write_progress sv ledger = Written →
   progress_file w' = Some ledger ∧ load_progress w' = ledger).
Proof.
  intros Hfoods Hrange Hpre Hraise done ledger w'.
  destruct (upload_loop_ledger _ _ _ _ _ _ Hpre eq_refl) as (Hp & Hc & Hf).
  fold done in Hp, Hf. cbn [initial_state progress world] in Hp, Hf.
  fold ledger in Hp.
  pose proof (upload_batch_raises _ _ _ _ _ Hc Hraise) as Hfail.
  destruct (upload_batch sv foods batch_size k st) as [st' outcome] eqn:E.
  cbn [snd] in Hfail. subst outcome.
  destruct (upload_batch_outcome _ _ _ _ _ _ _ E Hc) as (Hp' & Hc' & Hf' & Hu' & _).
  subst w'. cbn [fst].
  split_and!.
  - unfold batch_upload_foods. destruct foods as [| food foods']; [done |].
    rewrite Hrange. fold (initial_state w).
    rewrite (upload_loop_app _ _ _ _ _ _ _ Hpre). cbn [upload_loop].
    rewrite E. by rewrite Hc', Hc, Hp.
  - done.
  - done.
  - intros Hnone. by rewrite Hf', Hf, Hnone.
  - intros Hsome Hw.
    assert (Hfile : progress_file (world st') = Some ledger).
    { rewrite Hf', Hf. by apply persisted_file_last_written. }
    split; [done |]. unfold load_progress. by rewrite Hfile.
Qed.

Lemma failure_keeps_last_committed_ledger_witness :
  ∃ w',
    batch_upload_foods (failing_after 1) (numbered_foods 5) 2 fresh_world
      = (w', 2) ∧
    progress_file w'
      = Some {| uploaded_ids := ["1"; "2"]; last_batch := 1;
                total_uploaded := 2 |} ∧
    upserted_ids w' = ["1"; "2"].
Proof.
  destruct (failure_keeps_last_committed_ledger
              (failing_after 1) (numbered_foods 5) 2 fresh_world [0] [2] 1
              (upload_loop (failing_after 1) (numbered_foods 5) 2 [0]
                 (initial_state fresh_world)).1)
    as (H1 & _ & H3 & _ & H4);
    [discriminate | reflexivity | reflexivity | vm_compute; exact I |].
  destruct H4 as [H2 _]; [discriminate | reflexivity |].
  eexists. split; [exact H1 |]. split; [exact H2 |].
  unfold upserted_ids. rewrite H3. reflexivity.
Defined.

(** A batch whose embedding count differs from its size is not upserted,
    leaves the ledger and the progress file as they were, and the loop
    goes on with the next batch. *)
Lemma mismatch_batch_skipped (sv : Services) (foods : list Food)
    (batch_size i : nat) (rest : list nat) (st : LoopState) :
  batch_mismatch sv foods batch_size i st →
  let st' := (upload_batch sv foods batch_size i st).1 in
  progress st' = progress st ∧
  uploaded_count st' = uploaded_count st ∧
  progress_file (world st') = progress_file (world st) ∧
  upsert_calls (world st') = upsert_calls (world st) ∧
  upserted (world st') = upserted (world st) ∧
  upload_loop sv foods batch_size (i :: rest) st
    = upload_loop sv foods batch_size rest st'.
Proof.
  intros (embeddings & Hresp & Hlen). cbn [upload_loop].
  unfold upload_batch.
  destruct (generate_embeddings sv _ (world st)) as [w response] eqn:Hgen.
  destruct (generate_embeddings_frame _ _ _ _ _ Hgen) as (Hfile & Hcalls & Hups).
  cbn [snd] in Hresp. subst response.
  destruct (Nat.eqb_spec (length embeddings) (length (batch_of foods batch_size i)));
    [done |].
  cbn. done.
Qed.

(** C1 fails on the code.  After a run that committed 2 of the 3 batches
    of 120 new records, the rerun of the same command sends no embedding
    request and no upsert, removes the progress file and reports 100:
    records 101 to 120 are left out. *)
Theorem resume_skips_remaining_batch :
  result_of interrupted_run = Some (Uploaded 100) ∧
  progress_file (world_after interrupted_run)
    = Some {| uploaded_ids := numbered_ids 1 100; last_batch := 2;
              total_uploaded := 100 |} ∧
  upserted_ids (world_after interrupted_run) = numbered_ids 1 100 ∧
  result_of resumed_run = Some (Uploaded 100) ∧
  embedding_requests (world_after resumed_run)
    = embedding_requests (world_after interrupted_run) ∧
  upsert_calls (world_after resumed_run)
    = upsert_calls (world_after interrupted_run) ∧
  upserted_ids (world_after resumed_run) = numbered_ids 1 100 ∧
  progress_file (world_after resumed_run) = None.
Proof. repeat split; vm_compute; reflexivity. Qed.

(** C3 fails on the code in its last part.  The batch with 49 vectors
    for 50 records is skipped and the run goes on, but once a later
    batch has committed and another has failed, the rerun of the same
    command sends no embedding request at all: records 1 to 50 are not
    reattempted. *)
Theorem skipped_batch_not_reattempted :
  result_of mismatch_run = Some (Uploaded 50) ∧
  progress_file (world_after mismatch_run)
    = Some {| uploaded_ids := numbered_ids 51 50; last_batch := 2;
              total_uploaded := 50 |} ∧
  upserted_ids (world_after mismatch_run) = numbered_ids 51 50 ∧
  length (embedding_requests (world_after mismatch_run)) = 5 ∧
  result_of mismatch_rerun = Some (Uploaded 50) ∧
  embedding_requests (world_after mismatch_rerun)
    = embedding_requests (world_after mismatch_run) ∧
  upserted_ids (world_after mismatch_rerun) = numbered_ids 51 50 ∧
  progress_file (world_after mismatch_rerun) = None.
Proof. repeat split; vm_compute; reflexivity. Qed.

End UploaderProofs.

(** ** Further properties of the normalizer *)

Section StripProofs.

Import PyStr PipelineSpec.

(** *** Whitespace stripping *)

Lemma lstrip_clean_start (s : string) : clean_start (lstrip s).
Proof.
  induction s as [| c s IH]; [done |]. cbn [lstrip].
  by destruct (is_space c) eqn:E.
Qed.

Lemma lstrip_id (s : string) : clean_start s → lstrip s = s.
Proof. destruct s as [| c s]; [done |]. cbn [clean_start lstrip]. by intros ->. Qed.

Lemma string_app_cons (c : ascii) (a b : string) :
  String c a ++ b = String c (a ++ b).
Proof. reflexivity. Qed.

Lemma lstrip_suffix (s : string) : ∃ sp, s = sp ++ lstrip s.
Proof.
  induction s as [| c s [sp IH]]; [by exists "" |]. cbn [lstrip].
  destruct (is_space c).
  - exists (String c sp). rewrite ?string_app_cons. by rewrite <- IH.
  - by exists "".
Qed.

Lemma string_app_nil_r (s : string) : s ++ "" = s.
Proof. induction s as [| c s IH]; [done |]. rewrite ?string_app_cons. by rewrite IH. Qed.

Lemma string_app_assoc (a b c : string) : (a ++ b) ++ c = a ++ (b ++ c).
Proof. induction a as [| x a IH]; [done |]. rewrite ?string_app_cons. by rewrite IH. Qed.

Lemma rev_onto_app (s acc : string) : rev_onto s acc = reverse s ++ acc.
Proof.
  unfold reverse. revert acc. induction s as [| c s IH]; intros acc; [done |].
  cbn [rev_onto]. rewrite (IH (String c acc)), (IH (String c "")).
  by rewrite string_app_assoc.
Qed.

Lemma reverse_cons (c : ascii) (s : string) :
  reverse (String c s) = reverse s ++ String c "".
Proof. unfold reverse at 1. cbn [rev_onto]. apply rev_onto_app. Qed.

Lemma reverse_app (a b : string) : reverse (a ++ b) = reverse b ++ reverse a.
Proof.
  induction a as [| c a IH]; rewrite ?string_app_cons.
  - by rewrite string_app_nil_r.
  - by rewrite !reverse_cons, IH, string_app_assoc.
Qed.

Lemma reverse_involutive (s : string) : reverse (reverse s) = s.
Proof.
  induction s as [| c s IH]; [done |].
  by rewrite reverse_cons, reverse_app, IH.
Qed.

Lemma clean_start_prefix (u w : string) : clean_start (u ++ w) → u = "" ∨ clean_start u.
Proof. destruct u; [by left | by right]. Qed.

Lemma rstrip_prefix (t : string) : ∃ w, t = rstrip t ++ w.
Proof.
  unfold rstrip. destruct (lstrip_suffix (reverse t)) as [sp H].
  exists (reverse sp).
  rewrite <- reverse_app, <- H. by rewrite reverse_involutive.
Qed.

Lemma rstrip_id (u : string) : clean_start (reverse u) → rstrip u = u.
Proof.
  intros H. unfold rstrip. by rewrite lstrip_id, reverse_involutive.
Qed.

Lemma strip_clean (s : string) :
  lstrip (strip s) = strip s ∧ rstrip (strip s) = strip s.
Proof.
  unfold strip. set (t := lstrip s). split.
  - destruct (rstrip_prefix t) as [w Hw].
    pose proof (lstrip_clean_start s) as Ht. fold t in Ht. rewrite Hw in Ht.
    destruct (clean_start_prefix _ _ Ht) as [-> | Hu]; [done | by apply lstrip_id].
  - apply rstrip_id. unfold rstrip at 1. rewrite reverse_involutive.
    apply lstrip_clean_start.
Qed.

Lemma strip_idempotent (s : string) : strip (strip s) = strip s.
Proof.
  destruct (strip_clean s) as [H1 H2].
  unfold strip at 1. by rewrite H1, H2.
Qed.

End StripProofs.

Section CleanerExtras.

Import PyStr PyNum Cleaner CleanerSpec PipelineSpec.
Local Open Scope list_scope.
Local Open Scope nat_scope.

(** *** Nutrient lookup *)

(** X1: [get_nutrient] returns the amount of the first entry that
    carries the id (0 for a null amount), whatever follows it, and 0
    when no entry carries the id. *)
Theorem get_nutrient_first_match (nutrients : list NutrientEntry) (id : Z) :
  (∀ pre entry post,
     nutrients = pre ++ entry :: post →
     Forall (λ e, nutrient_id e ≠ Some id) pre →
     nutrient_id entry = Some id →
     get_nutrient nutrients id = default 0%Q (amount entry)) ∧
  (Forall (λ e, nutrient_id e ≠ Some id) nutrients →
   get_nutrient nutrients id = 0%Q).
Proof.
  split.
  - intros pre entry post -> Hpre Hentry.
    induction Hpre as [| e pre He _ IH]; cbn [app get_nutrient].
    + rewrite bool_decide_true by done. by destruct (amount entry).
    + by rewrite bool_decide_false.
  - intros Hnone. induction Hnone as [| e rest He _ IH]; cbn [get_nutrient];
      [done |]. by rewrite bool_decide_false.
Qed.

Lemma get_nutrient_first_match_witness :
  get_nutrient two_entries NUTRIENT_IDS.ENERGY_KCAL = 52%Q ∧
  get_nutrient two_entries NUTRIENT_IDS.PROTEIN = 0%Q.
Proof.
  split.
  - apply (proj1 (get_nutrient_first_match two_entries NUTRIENT_IDS.ENERGY_KCAL)
             [] {| nutrient_id := Some NUTRIENT_IDS.ENERGY_KCAL;
                   amount := Some 52%Q |} (tail two_entries));
      [reflexivity | constructor | reflexivity].
  - apply (proj2 (get_nutrient_first_match two_entries NUTRIENT_IDS.PROTEIN)).
    repeat constructor; discriminate.
Defined.

(** *** Brand extraction *)

Lemma first_brand_spec (name_upper : string) (bs : list string) :
  match first_brand name_upper bs with
  | Some b =>
      ∃ pre brand post,
        bs = pre ++ brand :: post ∧
        Forall (λ x, contains x name_upper = false) pre ∧
        contains brand name_upper = true ∧ b = title brand
  | None => Forall (λ x, contains x name_upper = false) bs
  end.
Proof.
  induction bs as [| b0 rest IH]; cbn [first_brand]; [constructor |].
  destruct (contains b0 name_upper) eqn:E.
  - exists [], b0, rest. repeat split; [constructor | done].
  - destruct (first_brand name_upper rest) as [b |].
    + destruct IH as (pre & brand & post & -> & Hpre & Hin & ->).
      exists (b0 :: pre), brand, post. repeat split; [by constructor | done].
    + by constructor.
Qed.

(** X2: [extract_brand] returns the title-cased form of the first name
    of the allow-list that occurs in the upper-cased food name, hence
    one of eleven fixed strings, and nothing when none occurs. *)
Theorem extract_brand_first_listed (food_name : string) :
  match extract_brand food_name with
  | Some b =>
      b ∈ brand_titles ∧
      ∃ pre brand post,
        brands = pre ++ brand :: post ∧
        Forall (λ x, contains x (upper food_name) = false) pre ∧
        contains brand (upper food_name) = true ∧ b = title brand
  | None => Forall (λ x, contains x (upper food_name) = false) brands
  end.
Proof.
  unfold extract_brand.
  pose proof (first_brand_spec (upper food_name) brands) as H.
  destruct (first_brand (upper food_name) brands) as [b |]; [| done].
  split; [| done].
  destruct H as (pre & brand & post & Heq & _ & _ & ->).
  assert (Hin : brand ∈ brands) by (rewrite Heq; set_solver).
  change brand_titles with (map title brands).
  by apply list_elem_of_fmap_2.
Qed.

Lemma upper_lower_char (c : ascii) : upper_char (lower_char c) = upper_char c.
Proof. by destruct c as [[] [] [] [] [] [] [] []]. Qed.

Lemma upper_upper_char (c : ascii) : upper_char (upper_char c) = upper_char c.
Proof. by destruct c as [[] [] [] [] [] [] [] []]. Qed.

Lemma upper_lower (s : string) : upper (lower s) = upper s.
Proof. induction s as [| c s IH]; [done |]. cbn. by rewrite upper_lower_char, IH. Qed.

Lemma upper_upper (s : string) : upper (upper s) = upper s.
Proof. induction s as [| c s IH]; [done |]. cbn. by rewrite upper_upper_char, IH. Qed.

(** X3: brand extraction does not depend on the case of the food name. *)
Theorem extract_brand_case_insensitive (food_name : string) :
  extract_brand (lower food_name) = extract_brand food_name ∧
  extract_brand (upper food_name) = extract_brand food_name.
Proof.
  unfold extract_brand. by rewrite upper_lower, upper_upper.
Qed.


(** *** Records returned by the normalizer *)

Lemma create_embedding_text_ignores_text (food : Food) (text : string) :
  create_embedding_text (set_embedding_text food text)
    = create_embedding_text food.
Proof. unfold create_embedding_text. by rewrite !embedding_parts_tags. Qed.

(** X4: the text stored in a record returned by [clean_food_data] is the
    text [create_embedding_text] derives from that record (from its
    rounded values); its brand is the one extracted from its name and
    its id is the decimal form of [fdcId], empty when the key is
    absent. *)
Theorem clean_food_data_derived_fields (raw_food : RawFood) (food : Food) :
  clean_food_data raw_food = Some food →
  embedding_text food = create_embedding_text food ∧
  brand food = extract_brand (name food) ∧
  external_id food = match fdcId raw_food with
                     | Some id => pretty id
                     | None => ""
                     end.
Proof.
  unfold clean_food_data.
  destruct (raw_description raw_food) as [d |]; [| done].
  destruct (negb (truthy d)); [done |].
  destruct (default [] (foodNutrients raw_food)) as [| entry entries]; [done |].
  destruct (_ || _); [done |].
  intros [= <-]. rewrite create_embedding_text_ignores_text. done.
Qed.

Lemma clean_food_data_derived_fields_witness :
  ∃ food,
    clean_food_data (raw_sample (Some "Hummus, SABRA classic") [energy 166])
      = Some food ∧
    embedding_text food = create_embedding_text food ∧
    brand food = Some "Sabra" ∧ external_id food = "171688".
Proof.
  eexists. split; [reflexivity |].
  edestruct (clean_food_data_derived_fields
               (raw_sample (Some "Hummus, SABRA classic") [energy 166]))
    as (H1 & H2 & H3); [reflexivity |].
  split; [exact H1 |]. split; [by rewrite H2 | by rewrite H3].
Defined.

(** X5: the name of a record returned by [clean_food_data] is not empty
    and carries no leading or trailing whitespace. *)
Theorem clean_food_data_name_stripped (raw_food : RawFood) (food : Food) :
  clean_food_data raw_food = Some food →
  name food ≠ "" ∧ strip (name food) = name food ∧
  lstrip (name food) = name food ∧ rstrip (name food) = name food.
Proof.
  unfold clean_food_data.
  destruct (raw_description raw_food) as [d |]; [| done].
  destruct (negb (truthy d)); [done |].
  destruct (default [] (foodNutrients raw_food)) as [| entry entries]; [done |].
  destruct (truthy (strip d)) eqn:Hs; [| done]. cbn [negb orb].
  destruct (is_zero _); [done |].
  intros [= <-]. cbn [name set_embedding_text].
  destruct (strip_clean d) as [H1 H2].
  repeat split; [| apply strip_idempotent | done | done].
  intros H. rewrite H in Hs. done.
Qed.

Lemma clean_food_data_name_stripped_witness :
  ∃ food,
    clean_food_data (raw_sample (Some "  Apples, raw  ") [energy 52]) = Some food ∧
    name food ≠ "" ∧ strip (name food) = name food.
Proof.
  eexists. split; [reflexivity |].
  edestruct (clean_food_data_name_stripped
               (raw_sample (Some "  Apples, raw  ") [energy 52]))
    as (H1 & H2 & _); [reflexivity |].
  split; [exact H1 | exact H2].
Defined.


(** X6: the macro values of a returned record are the rounded amounts
    looked up under the fixed ids; the energy looked up is not zero, and
    the sugar is the amount under id 2000 whenever the amount under id
    1063 is zero (absent, null or measured as zero). *)
Theorem clean_food_data_numbers (raw_food : RawFood) (food : Food) :
  clean_food_data raw_food = Some food →
  let nutrients := default [] (foodNutrients raw_food) in
  ¬ (get_nutrient nutrients 1008 == 0)%Q ∧
  calories_per_100g food = round2 (get_nutrient nutrients 1008) ∧
  protein_per_100g food = round2 (get_nutrient nutrients 1003) ∧
  fat_per_100g food = round2 (get_nutrient nutrients 1004) ∧
  carbs_per_100g food = round2 (get_nutrient nutrients 1005) ∧
  fiber_per_100g food = round2 (get_nutrient nutrients 1079) ∧
  sugar_per_100g food = round2 (sugar_of nutrients) ∧
  sodium_per_100g food = round2 (get_nutrient nutrients 1093) ∧
  ((get_nutrient nutrients 1063 == 0)%Q →
   sugar_per_100g food = round2 (get_nutrient nutrients 2000)).
Proof.
  unfold clean_food_data.
  destruct (raw_description raw_food) as [d |]; [| done].
  destruct (negb (truthy d)); [done |].
  destruct (default [] (foodNutrients raw_food)) as [| entry entries]; [done |].
  remember (entry :: entries) as nutrients eqn:Hcons.
  destruct (negb (truthy (strip d))); [done |]. cbn [orb].
  destruct (is_zero (get_nutrient nutrients NUTRIENT_IDS.ENERGY_KCAL)) eqn:Hz;
    [done |].
  intros [= <-]. cbn [calories_per_100g protein_per_100g fat_per_100g
    carbs_per_100g fiber_per_100g sugar_per_100g sodium_per_100g
    set_embedding_text].
  repeat split.
  - intros H. apply is_zero_true in H. unfold NUTRIENT_IDS.ENERGY_KCAL in Hz.
    congruence.
  - intros H. apply is_zero_true in H. unfold NUTRIENT_IDS.SUGAR. by rewrite H.
Qed.

Lemma clean_food_data_numbers_witness :
  ∃ food,
    clean_food_data (raw_sample (Some "Apples, raw") two_entries) = Some food ∧
    calories_per_100g food = round2 52 ∧
    sugar_per_100g food = round2 (104 # 10).
Proof.
  eexists. split; [reflexivity |].
  edestruct (clean_food_data_numbers
               (raw_sample (Some "Apples, raw") two_entries))
    as (_ & H1 & _ & _ & _ & _ & _ & _ & H2); [reflexivity |].
  split; [exact H1 | apply H2; reflexivity].
Defined.

(** *** The parts of the embedding text *)

Ltac tags_in_vocabulary :=
  repeat match goal with
  | |- context [Qle_bool ?x ?y] => destruct (Qle_bool x y)
  end;
  cbn [andb]; (split; [cbn [length]; lia | by apply (bool_decide_unpack _)]).

Lemma calorie_tags_vocabulary (c : Q) :
  length (calorie_tags c) = 1 ∧ Forall (λ t, t ∈ tag_vocabulary) (calorie_tags c).
Proof. unfold calorie_tags. tags_in_vocabulary. Qed.

Lemma protein_tags_vocabulary (p : Q) :
  length (protein_tags p) = 1 ∧ Forall (λ t, t ∈ tag_vocabulary) (protein_tags p).
Proof. unfold protein_tags. tags_in_vocabulary. Qed.

Lemma fat_tags_vocabulary (f : Q) :
  length (fat_tags f) = 1 ∧ Forall (λ t, t ∈ tag_vocabulary) (fat_tags f).
Proof. unfold fat_tags. tags_in_vocabulary. Qed.

Lemma carb_tags_vocabulary (c : Q) :
  length (carb_tags c) = 1 ∧ Forall (λ t, t ∈ tag_vocabulary) (carb_tags c).
Proof. unfold carb_tags. tags_in_vocabulary. Qed.

Lemma fiber_tags_vocabulary (f : Q) :
  length (fiber_tags f) ≤ 1 ∧ Forall (λ t, t ∈ tag_vocabulary) (fiber_tags f).
Proof. unfold fiber_tags. tags_in_vocabulary. Qed.

Lemma sugar_tags_vocabulary (s : Q) :
  length (sugar_tags s) ≤ 1 ∧ Forall (λ t, t ∈ tag_vocabulary) (sugar_tags s).
Proof. unfold sugar_tags. tags_in_vocabulary. Qed.

Lemma sodium_tags_vocabulary (s : Q) :
  length (sodium_tags s) ≤ 1 ∧ Forall (λ t, t ∈ tag_vocabulary) (sodium_tags s).
Proof. unfold sodium_tags. tags_in_vocabulary. Qed.

Lemma lean_tags_vocabulary (p c : Q) :
  length (lean_tags p c) ≤ 1 ∧ Forall (λ t, t ∈ tag_vocabulary) (lean_tags p c).
Proof. unfold lean_tags. tags_in_vocabulary. Qed.

Lemma keto_tags_vocabulary (f c : Q) :
  length (keto_tags f c) ≤ 1 ∧ Forall (λ t, t ∈ tag_vocabulary) (keto_tags f c).
Proof. unfold keto_tags. tags_in_vocabulary. Qed.

Lemma filling_tags_vocabulary (f c : Q) :
  length (filling_tags f c) ≤ 1 ∧
  Forall (λ t, t ∈ tag_vocabulary) (filling_tags f c).
Proof. unfold filling_tags. tags_in_vocabulary. Qed.

(** X7: the embedding text is made of the lower-cased name, the
    lower-cased category and between four and ten tags, every one of
    them from the fixed vocabulary: no numeric value enters the text. *)
Theorem embedding_parts_shape (food : Food) :
  take 2 (embedding_parts food) = [lower (name food); lower (category food)] ∧
  Forall (λ t, t ∈ tag_vocabulary) (drop 2 (embedding_parts food)) ∧
  6 ≤ length (embedding_parts food) ≤ 12.
Proof.
  rewrite embedding_parts_tags.
  destruct (calorie_tags_vocabulary (calories_per_100g food)) as [L1 V1].
  destruct (protein_tags_vocabulary (protein_per_100g food)) as [L2 V2].
  destruct (fat_tags_vocabulary (fat_per_100g food)) as [L3 V3].
  destruct (carb_tags_vocabulary (carbs_per_100g food)) as [L4 V4].
  destruct (fiber_tags_vocabulary (fiber_per_100g food)) as [L5 V5].
  destruct (sugar_tags_vocabulary (sugar_per_100g food)) as [L6 V6].
  destruct (sodium_tags_vocabulary (sodium_per_100g food)) as [L7 V7].
  destruct (lean_tags_vocabulary (protein_per_100g food) (calories_per_100g food))
    as [L8 V8].
  destruct (keto_tags_vocabulary (fat_per_100g food) (carbs_per_100g food))
    as [L9 V9].
  destruct (filling_tags_vocabulary (fiber_per_100g food) (calories_per_100g food))
    as [L10 V10].
  split; [done |]. split.
  - match goal with
    | |- Forall ?P (drop 2 (_ ++ ?tags)) => change (Forall P tags)
    end.
    rewrite !Forall_app. tauto.
  - rewrite !length_app. cbn [length]. lia.
Qed.


(** *** The cleaning loop under a limit *)

Lemma clean_loop_positive (n : Z) (foods : list RawFood)
    (cleaned_foods : list Food) (skipped : nat) :
  (0 < n)%Z → (Z.of_nat (length cleaned_foods) ≤ n)%Z →
  (clean_loop (Some n) foods cleaned_foods skipped).1
    = cleaned_foods
      ++ take (Z.to_nat n - length cleaned_foods) (omap clean_food_data foods).
Proof.
  intros Hn. revert cleaned_foods skipped.
  induction foods as [| food rest IH]; intros cleaned_foods skipped Hlen.
  - cbn. by rewrite take_nil, app_nil_r.
  - cbn [clean_loop limit_set]. change (default 0%Z (Some n)) with n.
    destruct (Z.eqb_spec n 0) as [-> | _]; [lia |]. cbn [negb andb].
    destruct (Z.leb_spec n (Z.of_nat (length cleaned_foods))) as [Hfull | Hroom].
    + replace (Z.to_nat n - length cleaned_foods) with 0 by lia.
      cbn [fst]. by rewrite take_0, app_nil_r.
    + destruct (clean_food_data food) as [clean_food |] eqn:Hc.
      * rewrite (omap_cons_Some _ _ _ _ Hc), IH
          by (rewrite length_app; cbn [length]; lia).
        rewrite length_app, <- app_assoc. cbn [length app].
        replace (Z.to_nat n - length cleaned_foods)
          with (S (Z.to_nat n - (length cleaned_foods + 1))) by lia.
        done.
      * rewrite (omap_cons_None _ _ _ Hc). by apply IH.
Qed.

Lemma clean_loop_negative (n : Z) (foods : list RawFood)
    (cleaned_foods : list Food) (skipped : nat) :
  (n < 0)%Z → clean_loop (Some n) foods cleaned_foods skipped
                = (cleaned_foods, skipped).
Proof.
  intros Hn. destruct foods as [| food rest]; [done |].
  cbn [clean_loop limit_set]. change (default 0%Z (Some n)) with n.
  destruct (Z.eqb_spec n 0) as [-> | _]; [lia |]. cbn [negb andb].
  destruct (Z.leb_spec n (Z.of_nat (length cleaned_foods))); [done | lia].
Qed.

Lemma clean_loop_counts (limit : option Z) (foods : list RawFood)
    (cleaned_foods : list Food) (skipped : nat) :
  length (clean_loop limit foods cleaned_foods skipped).1
    + (clean_loop limit foods cleaned_foods skipped).2
  ≤ length cleaned_foods + skipped + length foods.
Proof.
  revert cleaned_foods skipped.
  induction foods as [| food rest IH]; intros cleaned_foods skipped.
  - cbn. lia.
  - cbn [clean_loop]. destruct (_ && _); [cbn; lia |].
    destruct (clean_food_data food) as [clean_food |].
    + etransitivity; [apply IH |]. rewrite length_app. cbn. lia.
    + etransitivity; [apply IH |]. cbn. lia.
Qed.

(** X8: with a positive limit [n] the normalizer writes the first [n]
    records that clean successfully, in input order; with a negative
    limit it writes nothing; and in every case the records written and
    the records counted as skipped are no more than the input. *)
Theorem process_usda_json_limit (foods : list RawFood) (n : Z) :
  ((0 < n)%Z →
   (process_usda_json foods (Some n)).1
     = take (Z.to_nat n) (omap clean_food_data foods)) ∧
  ((n < 0)%Z → process_usda_json foods (Some n) = ([], 0)) ∧
  (∀ limit,
     length (process_usda_json foods limit).1
       + (process_usda_json foods limit).2 ≤ length foods).
Proof.
  unfold process_usda_json. split; [| split].
  - intros Hn. rewrite clean_loop_positive by (cbn; lia).
    cbn [app length]. f_equal. lia.
  - intros Hn. by apply clean_loop_negative.
  - intros limit. etransitivity; [apply clean_loop_counts |]. cbn. lia.
Qed.

Lemma process_usda_json_limit_witness :
  (process_usda_json
     [raw_sample (Some "A") [energy 1]; raw_sample (Some "") [energy 1];
      raw_sample (Some "B") [energy 2]; raw_sample (Some "C") [energy 3]]
     (Some 2%Z)).1
  = take 2 (omap clean_food_data
     [raw_sample (Some "A") [energy 1]; raw_sample (Some "") [energy 1];
      raw_sample (Some "B") [energy 2]; raw_sample (Some "C") [energy 3]]) ∧
  process_usda_json [raw_sample (Some "A") [energy 1]] (Some (-1)%Z) = ([], 0).
Proof.
  split.
  - apply (process_usda_json_limit _ 2%Z). lia.
  - apply (process_usda_json_limit _ (-1)%Z). lia.
Defined.

End CleanerExtras.

(** ** Further properties of the uploader *)

Section UploaderExtras.

Import PyStr Cleaner Uploader UploaderSpec PipelineSpec.
Local Open Scope list_scope.
Local Open Scope nat_scope.

(** *** Embedding requests *)

(** X9: [generate_embeddings] sends the same texts one to three times;
    it returns the answer of its last request, every earlier request
    having failed, and it raises only when all three requests failed. *)
Theorem generate_embeddings_retries (sv : Services) (texts : list string)
    (w : World) :
  let n := length (embedding_requests w) in
  let w' := (generate_embeddings sv texts w).1 in
  let response := (generate_embeddings sv texts w).2 in
  ∃ k, 1 ≤ k ≤ 3 ∧
    embedding_requests w' = embedding_requests w ++ replicate k texts ∧
    (∀ j, j < k - 1 → embeddings_create sv (n + j) texts = None) ∧
    response = embeddings_create sv (n + (k - 1)) texts ∧
    (response = None → k = 3).
Proof.
  intros n. unfold generate_embeddings. cbn [seq max_retries embedding_attempts].
  fold n. destruct (embeddings_create sv n texts) as [v0 |] eqn:E0.
  { exists 1. cbn [fst snd embedding_requests replicate].
    split_and!; try lia; try done. by rewrite Nat.add_0_r. }
  cbn [Nat.ltb Nat.leb Nat.sub embedding_requests]. rewrite length_app. cbn [length]. fold n.
  destruct (embeddings_create sv (n + 1) texts) as [v1 |] eqn:E1.
  { exists 2. cbn [fst snd embedding_requests replicate].
    rewrite <- app_assoc. split_and!; try lia; try done.
    intros j Hj. assert (j = 0) as -> by lia. by rewrite Nat.add_0_r. }
  cbn [Nat.ltb Nat.leb Nat.sub embedding_requests]. rewrite !length_app. cbn [length]. fold n.
  replace (n + 1 + 1) with (n + 2) by lia.
  exists 3.
  assert (Hearlier : ∀ j, j < 3 - 1 → embeddings_create sv (n + j) texts = None).
  { intros j Hj. assert (j = 0 ∨ j = 1) as [-> | ->] by lia;
      [by rewrite Nat.add_0_r | done]. }
  destruct (embeddings_create sv (n + 2) texts) as [v2 |] eqn:E2;
    cbn [fst snd embedding_requests replicate Nat.sub]; rewrite <- !app_assoc;
    split_and!; try lia; done.
Qed.

(** *** The existing-set resolver over a table *)

Lemma py_slice_take_drop {A} (l : list A) (start count : nat) :
  py_slice l start (start + count) = take count (drop start l).
Proof. unfold py_slice. f_equal. lia. Qed.

Lemma table_pages_ids (rows : list string) (sv : Services) (n : nat) :
  pages_ids (table_services rows sv) n = list_to_set (take (n * page_size) rows).
Proof.
  induction n as [| n IH]; [done |].
  cbn [pages_ids table_services select_page default]. rewrite IH.
  change (id ?x) with x.
  rewrite py_slice_take_drop, <- list_to_set_app_L, take_take_drop.
  f_equal. f_equal. lia.
Qed.

(** X10: over a remote table that answers range queries from a fixed
    list of rows, the resolver returns exactly the ids of the table,
    after one query per full page of 1000 rows and one more. *)
Theorem existing_ids_of_table (rows : list string) (sv : Services) (fuel : nat) :
  (length rows / page_size < fuel →
   get_existing_food_ids (table_services rows sv) fuel = Some (list_to_set rows)) ∧
  (fuel ≤ length rows / page_size →
   get_existing_food_ids (table_services rows sv) fuel = None).
Proof.
  set (n := length rows / page_size).
  assert (Hps : 0 < page_size) by (unfold page_size; lia).
  assert (Hle : n * page_size ≤ length rows).
  { unfold n. rewrite Nat.mul_comm. apply Nat.Div0.mul_div_le. }
  assert (Hlt : length rows < n * page_size + page_size).
  { unfold n. pose proof (Nat.div_mod (length rows) page_size ltac:(lia)) as Hd.
    pose proof (Nat.mod_upper_bound (length rows) page_size ltac:(lia)). lia. }
  assert (Hfull : ∀ k, k < n → ∃ page,
            select_page (table_services rows sv) (k * page_size) = Some page ∧
            page_size ≤ length page).
  { intros k Hk. eexists. split; [reflexivity |].
    rewrite py_slice_take_drop, length_take, length_drop.
    assert (k * page_size + page_size ≤ n * page_size) by nia. lia. }
  split.
  - intros Hfuel. unfold get_existing_food_ids.
    replace fuel with (n + S (fuel - S n)) by lia.
    rewrite fetch_pages_prefix by done.
    cbn [fetch_pages table_services select_page].
    rewrite table_pages_ids, py_slice_take_drop.
    rewrite (take_ge (drop _ _)) by (rewrite length_drop; lia).
    destruct (drop (n * page_size) rows) as [| row rest] eqn:Hdrop.
    + f_equal. rewrite <- (take_drop (n * page_size) rows) at 2.
      by rewrite Hdrop, app_nil_r.
    + assert (Hshort : length (row :: rest) < page_size).
      { rewrite <- Hdrop, length_drop. lia. }
      destruct (Nat.ltb_spec (length (row :: rest)) page_size); [| lia].
      f_equal. rewrite <- list_to_set_app_L, <- Hdrop. by rewrite take_drop.
  - intros Hfuel. unfold get_existing_food_ids.
    replace fuel with (fuel + 0) by lia.
    rewrite fetch_pages_prefix by (intros k Hk; apply Hfull; lia). done.
Qed.

Lemma existing_ids_of_table_witness :
  get_existing_food_ids (table_services (numbered_ids 1 2000) (healthy [])) 3
    = Some (list_to_set (numbered_ids 1 2000)) ∧
  get_existing_food_ids (table_services (numbered_ids 1 2000) (healthy [])) 2
    = None.
Proof.
  split.
  - apply existing_ids_of_table. vm_compute. lia.
  - apply existing_ids_of_table. vm_compute. lia.
Defined.

(** *** Batches as slices *)

Lemma batch_of_take_drop (foods : list Food) (batch_size i : nat) :
  batch_of foods batch_size i = take batch_size (drop (i * batch_size) foods).
Proof.
  unfold batch_of, py_slice.
  destruct (Nat.le_ge_cases (i * batch_size + batch_size) (length foods)).
  - f_equal. lia.
  - rewrite !take_ge; [done | rewrite length_drop; lia | rewrite length_drop; lia].
Qed.

Lemma concat_batches (foods : list Food) (batch_size start count : nat) :
  concat (map (batch_of foods batch_size) (seq start count))
    = take (count * batch_size) (drop (start * batch_size) foods).
Proof.
  induction count as [| count IH]; [done |].
  rewrite seq_S, map_app, concat_app, IH. cbn [map concat].
  rewrite app_nil_r, batch_of_take_drop.
  replace ((start + count) * batch_size)
    with (start * batch_size + count * batch_size) by lia.
  rewrite <- drop_drop, take_take_drop. f_equal. lia.
Qed.

Lemma total_batches_cover (len batch_size : nat) :
  0 < batch_size →
  len ≤ (len + batch_size - 1) / batch_size * batch_size.
Proof.
  intros Hb.
  pose proof (Nat.div_mod (len + batch_size - 1) batch_size ltac:(lia)) as Hd.
  pose proof (Nat.mod_upper_bound (len + batch_size - 1) batch_size ltac:(lia)).
  lia.
Qed.

Lemma total_batches_tight (len batch_size i : nat) :
  0 < batch_size →
  i < (len + batch_size - 1) / batch_size → i * batch_size < len.
Proof.
  intros Hb Hi.
  pose proof (Nat.Div0.mul_div_le (len + batch_size - 1) batch_size) as Hd.
  assert ((i + 1) * batch_size ≤ (len + batch_size - 1) / batch_size * batch_size)
    by (apply Nat.mul_le_mono_r; lia).
  lia.
Qed.

Lemma concat_batch_range (foods : list Food) (batch_size start : nat) :
  0 < batch_size →
  concat (map (batch_of foods batch_size) (batch_range foods batch_size start))
    = drop (start * batch_size) foods.
Proof.
  intros Hb. unfold batch_range. rewrite concat_batches.
  apply take_ge. rewrite length_drop.
  pose proof (total_batches_cover (length foods) batch_size Hb).
  destruct (Nat.le_ge_cases start ((length foods + batch_size - 1) / batch_size))
    as [Hs | Hs].
  - rewrite Nat.mul_sub_distr_r. lia.
  - assert ((length foods + batch_size - 1) / batch_size * batch_size
            ≤ start * batch_size) by (apply Nat.mul_le_mono_r; lia).
    lia.
Qed.

Lemma batch_in_range_size (foods : list Food) (batch_size start i : nat) :
  0 < batch_size → i ∈ batch_range foods batch_size start →
  0 < length (batch_of foods batch_size i) ≤ batch_size.
Proof.
  intros Hb Hi. unfold batch_range in Hi. apply elem_of_seq in Hi.
  assert (i * batch_size < length foods)
    by (apply total_batches_tight; [done | lia]).
  rewrite batch_of_take_drop, length_take, length_drop. lia.
Qed.

(** *** One iteration and the whole loop *)

Lemma payload_for_ids (foods : list Food) (batch_size i : nat)
    (rows : list UploadRow) :
  payload_for foods batch_size i rows →
  map row_external_id rows = map external_id (batch_of foods batch_size i) ∧
  map row_embedding_text rows = map embedding_text (batch_of foods batch_size i) ∧
  length rows = length (batch_of foods batch_size i).
Proof.
  intros (embeddings & Hlen & ->).
  revert embeddings Hlen.
  induction (batch_of foods batch_size i) as [| food batch IH];
    intros [| e embeddings] Hlen; try done.
  cbn [zip_with map length]. cbn [length] in Hlen.
  destruct (IH embeddings ltac:(lia)) as (-> & -> & ->). done.
Qed.

Lemma upload_batch_step (sv : Services) (foods : list Food)
    (batch_size i : nat) (st st' : LoopState) (outcome : BatchOutcome) :
  upload_batch sv foods batch_size i st = (st', outcome) →
  uploaded_count st = total_uploaded (progress st) →
  uploaded_count st' = total_uploaded (progress st') ∧
  match outcome with
  | Committed =>
      ∃ rows, payload_for foods batch_size i rows ∧
        upserted (world st') = upserted (world st) ++ [rows] ∧
        progress st' = commit_batch foods batch_size (progress st) i ∧
        progress_file (world st')
          = write_file sv (progress st') (progress_file (world st))
  | Skipped | Failed =>
      upserted (world st') = upserted (world st) ∧
      progress st' = progress st ∧
      progress_file (world st') = progress_file (world st)
  end.
Proof.
  unfold upload_batch.
  destruct (generate_embeddings sv _ (world st)) as [w response] eqn:Hgen.
  destruct (generate_embeddings_frame _ _ _ _ _ Hgen) as (Hfile & Hcalls & Hups).
  destruct response as [embeddings |].
  2:{ intros [= <- <-] Hc. done. }
  destruct (Nat.eqb_spec (length embeddings) (length (batch_of foods batch_size i)))
    as [Hlen | Hlen]; cbn [negb].
  2:{ intros [= <- <-] Hc. done. }
  unfold upsert. destruct (upsert_execute sv _ _).
  - intros [= <- <-] Hc. cbn. split; [done |].
    eexists. split; [by exists embeddings |].
    unfold commit_batch. by rewrite Hups, Hc, Hfile.
  - intros [= <- <-] Hc. done.
Qed.

Lemma upload_loop_accounting (sv : Services) (foods : list Food)
    (batch_size : nat) (batches : list nat) (st st' : LoopState)
    (completed : bool) :
  upload_loop sv foods batch_size batches st = (st', completed) →
  uploaded_count st = total_uploaded (progress st) →
  let done := committed_batches sv foods batch_size batches st in
  ∃ new,
    Forall2 (payload_for foods batch_size) done new ∧
    upserted (world st') = upserted (world st) ++ new ∧
    progress st' = foldl (commit_batch foods batch_size) (progress st) done ∧
    uploaded_count st' = total_uploaded (progress st') ∧
    progress_file (world st')
      = persisted_file sv foods batch_size (progress st)
          (progress_file (world st)) done.
Proof.
  revert st. induction batches as [| i batches IH]; intros st;
    cbn [upload_loop committed_batches].
  - intros [= <- <-] Hc. exists []. by rewrite app_nil_r.
  - destruct (upload_batch sv foods batch_size i st) as [st1 outcome] eqn:E.
    intros Hloop Hc.
    destruct (upload_batch_step _ _ _ _ _ _ _ E Hc) as [Hc1 Hstep].
    destruct outcome.
    + destruct Hstep as (rows & Hrows & Hups & Hp & Hf).
      destruct (IH st1 Hloop Hc1) as (new & Hnew & Hups' & Hp' & Hc' & Hf').
      exists (rows :: new). cbn [foldl persisted_file]. rewrite <- Hp, <- Hf.
      split_and!; [by constructor | | done | done | done].
      by rewrite Hups', Hups, <- app_assoc.
    + destruct Hstep as (Hups & Hp & Hf).
      destruct (IH st1 Hloop Hc1) as (new & Hnew & Hups' & Hp' & Hc' & Hf').
      exists new. rewrite <- Hp, <- Hups, <- Hf. done.
    + destruct Hstep as (Hups & Hp & Hf). injection Hloop as <- <-.
      exists []. rewrite app_nil_r. done.
Qed.

(** The progress file after some commits is the file before them, an
    unreadable file, or the ledger after a first stretch of them. *)
Lemma persisted_file_prefix (sv : Services) (foods : list Food)
    (batch_size : nat) (p : Progress) (file : option Progress)
    (done : list nat) :
  persisted_file sv foods batch_size p file done = file ∨
  persisted_file sv foods batch_size p file done = None ∨
  ∃ k, 0 < k ≤ length done ∧
    persisted_file sv foods batch_size p file done
      = Some (foldl (commit_batch foods batch_size) p (take k done)).
Proof.
  revert p file. induction done as [| i rest IH]; intros p file;
    cbn [persisted_file]; [by left |].
  destruct (IH (commit_batch foods batch_size p i)
              (write_file sv (commit_batch foods batch_size p i) file))
    as [H | [H | (k & Hk & H)]]; rewrite H.
  - unfold write_file. destruct (write_progress sv _); [| by left | by right; left].
    right; right. exists 1. split; [cbn [length]; lia | done].
  - by right; left.
  - right; right. exists (S k). split; [cbn [length]; lia | done].
Qed.

Lemma persisted_file_all_written (sv : Services) (foods : list Food)
    (batch_size : nat) (p : Progress) (file : option Progress)
    (done : list nat) :
  (∀ q, write_progress sv q = Written) →
  persisted_file sv foods batch_size p file done
    = match done with
      | [] => file
      | _ :: _ => Some (foldl (commit_batch foods batch_size) p done)
      end.
Proof.
  intros Hw. destruct done as [| i rest]; [done |].
  by apply persisted_file_last_written.
Qed.

Lemma committed_batches_sublist (sv : Services) (foods : list Food)
    (batch_size : nat) (batches : list nat) (st : LoopState) :
  sublist (committed_batches sv foods batch_size batches st) batches.
Proof.
  revert st. induction batches as [| i batches IH]; intros st;
    cbn [committed_batches]; [done |].
  destruct (upload_batch sv foods batch_size i st) as [st1 outcome].
  destruct outcome.
  - by apply sublist_skip.
  - by apply sublist_cons.
  - apply sublist_nil_l.
Qed.

Lemma foldl_commit_batch (foods : list Food) (batch_size : nat)
    (done : list nat) (p : Progress) :
  uploaded_ids (foldl (commit_batch foods batch_size) p done)
    = uploaded_ids p
      ++ map external_id (concat (map (batch_of foods batch_size) done)) ∧
  total_uploaded (foldl (commit_batch foods batch_size) p done)
    = total_uploaded p
      + length (concat (map (batch_of foods batch_size) done)).
Proof.
  revert p. induction done as [| i done IH]; intros p; cbn [foldl map concat].
  - rewrite app_nil_r. cbn [length]. split; [done | lia].
  - destruct (IH (commit_batch foods batch_size p i)) as [-> ->].
    cbn [commit_batch uploaded_ids total_uploaded].
    rewrite map_app, length_app, <- app_assoc. split; [done | lia].
Qed.

Lemma payloads_of_batches (foods : list Food) (batch_size : nat)
    (done : list nat) (new : list (list UploadRow)) :
  Forall2 (payload_for foods batch_size) done new →
  payload_ids new
    = map external_id (concat (map (batch_of foods batch_size) done)) ∧
  length (concat new)
    = length (concat (map (batch_of foods batch_size) done)).
Proof.
  unfold payload_ids.
  induction 1 as [| i rows done new Hrows _ [IH1 IH2]]; [done |].
  destruct (payload_for_ids _ _ _ _ Hrows) as (Hids & _ & Hlen).
  cbn [map concat]. rewrite !map_app, !length_app, Hids, IH1, IH2, Hlen. done.
Qed.

(** *** Runs of [batch_upload_foods] *)

(** X11: whatever the collaborators and the file system do, a run over
    a non-empty list only adds payloads to what the remote table
    accepted, and the count it returns is the ledger's total at the
    start plus the rows accepted during the run.  A progress file left
    behind never runs ahead of the table: it lists the earlier ids
    followed by the ids of a first stretch of the payloads accepted
    during the run, with the matching total, and of all of them when
    every write of the file succeeds. *)
Theorem run_accounting (sv : Services) (foods : list Food) (batch_size : nat)
    (w : World) :
  foods ≠ [] →
  let w' := (batch_upload_foods sv foods batch_size w).1 in
  let count := (batch_upload_foods sv foods batch_size w).2 in
  ∃ new,
    upserted w' = upserted w ++ new ∧
    count = total_uploaded (load_progress w) + length (concat new) ∧
    (progress_file w' = None ∨
     ∃ saved, saved `prefix_of` new ∧
       uploaded_ids (load_progress w')
         = uploaded_ids (load_progress w) ++ payload_ids saved ∧
       total_uploaded (load_progress w')
         = total_uploaded (load_progress w) + length (concat saved)) ∧
    ((∀ p, write_progress sv p = Written) →
     progress_file w' = None ∨
     (uploaded_ids (load_progress w')
        = uploaded_ids (load_progress w) ++ payload_ids new ∧
      total_uploaded (load_progress w') = count)).
Proof.
  intros Hfoods. unfold batch_upload_foods.
  destruct foods as [| food foods']; [done |].
  set (foods := food :: foods'). fold (initial_state w).
  destruct (upload_loop sv foods batch_size _ (initial_state w))
    as [st completed] eqn:Hloop.
  destruct (upload_loop_accounting _ _ _ _ _ _ _ Hloop eq_refl)
    as (new & Hnew & Hups & Hp & Hc & Hf).
  cbn [initial_state world progress] in Hups, Hp, Hf.
  set (done := committed_batches sv foods batch_size
                 (batch_range foods batch_size (last_batch (load_progress w)))
                 (initial_state w)) in *.
  destruct (payloads_of_batches _ _ _ _ Hnew) as [Hids Hlen].
  destruct (foldl_commit_batch foods batch_size done (load_progress w))
    as [Hfi Hft].
  exists new.
  assert (Hcount : uploaded_count st
            = total_uploaded (load_progress w) + length (concat new)).
  { by rewrite Hc, Hp, Hft, Hlen. }
  assert (Hstale : progress_file (world st) = progress_file w →
            progress_file (world st) = None ∨
            (uploaded_ids (load_progress (world st))
               = uploaded_ids (load_progress w) ++ payload_ids [] ∧
             total_uploaded (load_progress (world st))
               = total_uploaded (load_progress w) + length (concat (@nil (list UploadRow))))).
  { intros Hsame.
    destruct (progress_file (world st)) as [q |] eqn:Hq; [right | by left].
    unfold load_progress. rewrite Hq, <- Hsame.
    unfold payload_ids. cbn [concat map length]. rewrite app_nil_r.
    split; [done | lia]. }
  destruct completed; cbn [fst snd]; (split; [done |]); (split; [done |]).
  { split; [by left | intros _; by left]. }
  split.
  - destruct (persisted_file_prefix sv foods batch_size (load_progress w)
                (progress_file w) done) as [H | [H | (k & Hk & H)]];
      rewrite <- Hf in H.
    + destruct (Hstale H) as [Hn | [H1 H2]]; [by left |].
      right. exists []. split; [apply prefix_nil | done].
    + by left.
    + right. exists (take k new). split; [apply prefix_take |].
      pose proof (Forall2_take _ _ _ k Hnew) as Htake.
      destruct (payloads_of_batches _ _ _ _ Htake) as [Hids' Hlen'].
      destruct (foldl_commit_batch foods batch_size (take k done)
                  (load_progress w)) as [Hfi' Hft'].
      unfold load_progress at 1 3. rewrite H.
      rewrite Hfi', Hft', Hids', Hlen'. done.
  - intros Hw. rewrite (persisted_file_all_written _ _ _ _ _ _ Hw) in Hf.
    destruct done as [| i done'] eqn:Hdone.
    + apply Forall2_nil_inv_l in Hnew. subst new.
      destruct (Hstale Hf) as [Hn | [H1 H2]]; [by left | right].
      split; [done |]. rewrite H2, Hcount. done.
    + right. unfold load_progress at 1 3. rewrite Hf.
      rewrite Hfi, Hft, Hids, <- Hlen. split; [done | lia].
Qed.

Lemma run_accounting_witness :
  ∃ new,
    upserted (batch_upload_foods (failing_after 1) (numbered_foods 5) 2
                fresh_world).1 = upserted fresh_world ++ new ∧
    (batch_upload_foods (failing_after 1) (numbered_foods 5) 2 fresh_world).2
      = 0 + length (concat new).
Proof.
  destruct (run_accounting (failing_after 1) (numbered_foods 5) 2 fresh_world)
    as (new & H1 & H2 & _); [discriminate |].
  exists new. split; [exact H1 | exact H2].
Defined.

(** X12: the payloads a run gets accepted belong to distinct batches of
    the range it visits, in increasing order; each is built from the
    records of its batch with one embedding per record, so it is never
    empty and never longer than the batch size. *)
Theorem upserted_payloads_shape (sv : Services) (foods : list Food)
    (batch_size : nat) (w : World) :
  0 < batch_size → foods ≠ [] →
  let w' := (batch_upload_foods sv foods batch_size w).1 in
  ∃ done new,
    upserted w' = upserted w ++ new ∧
    sublist done (batch_range foods batch_size (last_batch (load_progress w))) ∧
    Forall2 (payload_for foods batch_size) done new ∧
    Forall2 (λ i rows,
               map row_external_id rows
                 = map external_id (batch_of foods batch_size i)) done new ∧
    Forall (λ rows, 0 < length rows ≤ batch_size) new.
Proof.
  intros Hb Hfoods. unfold batch_upload_foods.
  destruct foods as [| food foods']; [done |].
  set (foods := food :: foods'). fold (initial_state w).
  destruct (upload_loop sv foods batch_size _ (initial_state w))
    as [st completed] eqn:Hloop.
  destruct (upload_loop_accounting _ _ _ _ _ _ _ Hloop eq_refl)
    as (new & Hnew & Hups & _).
  pose proof (committed_batches_sublist sv foods batch_size
                (batch_range foods batch_size (last_batch (load_progress w)))
                (initial_state w)) as Hsub.
  eexists _, new.
  assert (Hw : upserted (if completed then remove_progress_file (world st)
                          else world st) = upserted w ++ new)
    by (by destruct completed).
  destruct completed; cbn [fst]; (split; [exact Hw |]);
    (split; [exact Hsub |]); (split; [exact Hnew |]); split.
  all: try (eapply Forall2_impl; [exact Hnew |];
            intros i rows Hrows; by apply payload_for_ids).
  all: eapply (Forall2_Forall_r _ _ _ _ Hnew); apply Forall_forall;
    intros i Hi rows Hrows;
    destruct (payload_for_ids _ _ _ _ Hrows) as (_ & _ & ->);
    eapply batch_in_range_size; [done |];
    eapply elem_of_sublist; [exact Hi | exact Hsub].
Qed.

Lemma upserted_payloads_shape_witness :
  ∃ new,
    upserted (batch_upload_foods (failing_after 2) (numbered_foods 5) 2
                fresh_world).1 = upserted fresh_world ++ new ∧
    Forall (λ rows, 0 < length rows ≤ 2) new.
Proof.
  destruct (upserted_payloads_shape (failing_after 2) (numbered_foods 5) 2
              fresh_world) as (done & new & H1 & _ & _ & _ & H2);
    [lia | discriminate |].
  exists new. split; [exact H1 | exact H2].
Defined.

(** *** Runs with collaborators that never fail *)

Lemma generate_embeddings_first (sv : Services) (texts : list string)
    (w : World) (vectors : list Embedding) :
  embeddings_create sv (length (embedding_requests w)) texts = Some vectors →
  generate_embeddings sv texts w
    = ({| progress_file := progress_file w;
          embedding_requests := embedding_requests w ++ [texts];
          upsert_calls := upsert_calls w;
          upserted := upserted w |}, Some vectors).
Proof.
  intros H. unfold generate_embeddings.
  cbn [seq max_retries embedding_attempts]. by rewrite H.
Qed.

Lemma upload_batch_well_behaved (sv : Services) (foods : list Food)
    (batch_size i : nat) (st : LoopState) :
  well_behaved sv →
  (upload_batch sv foods batch_size i st).2 = Committed ∧
  embedding_requests (world (upload_batch sv foods batch_size i st).1)
    = embedding_requests (world st)
      ++ [map embedding_text (batch_of foods batch_size i)].
Proof.
  intros [Hemb Hups]. unfold upload_batch.
  destruct (Hemb (length (embedding_requests (world st)))
              (map embedding_text (batch_of foods batch_size i)))
    as (vectors & Hv & Hlen).
  rewrite (generate_embeddings_first _ _ _ _ Hv).
  rewrite length_map in Hlen. rewrite Hlen, Nat.eqb_refl. cbn [negb].
  unfold upsert. rewrite Hups. done.
Qed.

Lemma upload_loop_well_behaved (sv : Services) (foods : list Food)
    (batch_size : nat) (batches : list nat) (st : LoopState) :
  well_behaved sv →
  (upload_loop sv foods batch_size batches st).2 = true ∧
  committed_batches sv foods batch_size batches st = batches ∧
  embedding_requests (world (upload_loop sv foods batch_size batches st).1)
    = embedding_requests (world st)
      ++ map (λ i, map embedding_text (batch_of foods batch_size i)) batches.
Proof.
  intros Hsv. revert st. induction batches as [| i batches IH]; intros st;
    cbn [upload_loop committed_batches map].
  - by rewrite app_nil_r.
  - destruct (upload_batch_well_behaved sv foods batch_size i st Hsv) as [Ho Hreq].
    destruct (upload_batch sv foods batch_size i st) as [st1 outcome].
    cbn [fst snd] in Ho, Hreq. subst outcome.
    destruct (IH st1) as (-> & -> & ->). rewrite Hreq, <- app_assoc. done.
Qed.

Lemma healthy_run (sv : Services) (foods : list Food)
    (batch_size : nat) (w : World) :
  well_behaved sv → 0 < batch_size → foods ≠ [] →
  let start := last_batch (load_progress w) in
  let rest := drop (start * batch_size) foods in
  (batch_upload_foods sv foods batch_size w).2
    = total_uploaded (load_progress w) + length rest ∧
  upserted_ids (batch_upload_foods sv foods batch_size w).1
    = upserted_ids w ++ map external_id rest ∧
  progress_file (batch_upload_foods sv foods batch_size w).1 = None ∧
  embedding_requests (batch_upload_foods sv foods batch_size w).1
    = embedding_requests w
      ++ map (λ i, map embedding_text (batch_of foods batch_size i))
             (batch_range foods batch_size start).
Proof.
  intros Hsv Hb Hfoods start rest.
  unfold batch_upload_foods. subst rest.
  destruct foods as [| food foods']; [done |].
  set (fs := food :: foods') in *. fold (initial_state w). fold start.
  destruct (upload_loop_well_behaved sv fs batch_size
              (batch_range fs batch_size start) (initial_state w) Hsv)
    as (Hdone & Hall & Hreq).
  destruct (upload_loop sv fs batch_size _ (initial_state w))
    as [st completed] eqn:Hloop.
  cbn [fst snd] in Hdone, Hreq. subst completed.
  destruct (upload_loop_accounting _ _ _ _ _ _ _ Hloop eq_refl)
    as (new & Hnew & Hups & Hp & Hc & _).
  rewrite Hall in Hnew, Hp.
  destruct (payloads_of_batches _ _ _ _ Hnew) as [Hids Hlen].
  destruct (foldl_commit_batch fs batch_size
              (batch_range fs batch_size start) (load_progress w)) as [_ Hft].
  rewrite concat_batch_range in Hids, Hlen, Hft by done.
  cbn [fst snd]. unfold upserted_ids, remove_progress_file.
  cbn [progress_file embedding_requests upserted].
  cbn [initial_state world progress] in Hups, Hp, Hreq.
  split_and!; [| | done | done].
  - by rewrite Hc, Hp, Hft.
  - rewrite Hups, concat_app, map_app.
    unfold payload_ids in Hids. by rewrite <- Hids.
Qed.

(** X13: with collaborators that never fail, a run over a non-empty
    list uploads the records from position [last_batch * batch_size] of
    the list on, each once and in order, with one embedding request per
    batch; it adds their number to the ledger's total and removes the
    progress file.  From a fresh ledger that is the whole list. *)
Theorem healthy_run_uploads_rest (sv : Services) (foods : list Food)
    (batch_size : nat) (w : World) :
  well_behaved sv → 0 < batch_size → foods ≠ [] →
  let start := last_batch (load_progress w) in
  let rest := drop (start * batch_size) foods in
  let w' := (batch_upload_foods sv foods batch_size w).1 in
  let count := (batch_upload_foods sv foods batch_size w).2 in
  count = total_uploaded (load_progress w) + length rest ∧
  upserted_ids w' = upserted_ids w ++ map external_id rest ∧
  progress_file w' = None ∧
  embedding_requests w'
    = embedding_requests w
      ++ map (λ i, map embedding_text (batch_of foods batch_size i))
             (batch_range foods batch_size start) ∧
  (progress_file w = None →
   count = length foods ∧
   upserted_ids w' = upserted_ids w ++ map external_id foods).
Proof.
  intros Hsv Hb Hfoods start rest.
  destruct (healthy_run sv foods batch_size w Hsv Hb Hfoods)
    as (H1 & H2 & H3 & H4).
  split_and!; try done.
  intros Hfresh. subst rest start. unfold load_progress in H1, H2.
  rewrite Hfresh in H1, H2. cbn in H1, H2. done.
Qed.

Lemma healthy_well_behaved (ids : list string) : well_behaved (healthy ids).
Proof.
  split; [| done]. intros n texts. eexists. split; [reflexivity |].
  unfold vectors_for. by rewrite length_map.
Qed.

Lemma healthy_run_uploads_rest_witness :
  (batch_upload_foods (healthy []) (numbered_foods 5) 2 fresh_world).2 = 5 ∧
  upserted_ids (batch_upload_foods (healthy []) (numbered_foods 5) 2 fresh_world).1
    = ["1"; "2"; "3"; "4"; "5"].
Proof.
  destruct (healthy_run_uploads_rest (healthy []) (numbered_foods 5) 2 fresh_world)
    as (_ & _ & _ & _ & H); [apply healthy_well_behaved | lia | discriminate |].
  destruct (H eq_refl) as [H1 H2]. split; [exact H1 | exact H2].
Defined.

(** X14: when the ledger's batch index is at or past the end of the
    given list, a run sends nothing, removes the progress file and
    returns the ledger's total, whatever the collaborators would do. *)
Theorem stale_index_skips_everything (sv : Services) (foods : list Food)
    (batch_size : nat) (w : World) :
  0 < batch_size → foods ≠ [] →
  length foods ≤ last_batch (load_progress w) * batch_size →
  batch_upload_foods sv foods batch_size w
    = (remove_progress_file w, total_uploaded (load_progress w)).
Proof.
  intros Hb Hfoods Hpast. unfold batch_upload_foods.
  destruct foods as [| food foods']; [done |].
  set (fs := food :: foods') in *.
  assert (Hrange : batch_range fs batch_size (last_batch (load_progress w)) = []).
  { unfold batch_range.
    assert ((length fs + batch_size - 1) / batch_size
            ≤ last_batch (load_progress w)) as Hle.
    { apply Nat.lt_succ_r, Nat.Div0.div_lt_upper_bound. lia. }
    by replace (_ - _) with 0 by lia. }
  by rewrite Hrange.
Qed.

Lemma stale_index_skips_everything_witness :
  batch_upload_foods (healthy []) (numbered_foods 3) 2
    (ledger_world {| uploaded_ids := ["7"; "8"; "9"; "10"]; last_batch := 2;
                     total_uploaded := 4 |})
  = (fresh_world, 4).
Proof.
  apply (stale_index_skips_everything (healthy []) (numbered_foods 3) 2
           (ledger_world {| uploaded_ids := ["7"; "8"; "9"; "10"];
                            last_batch := 2; total_uploaded := 4 |}));
    [lia | discriminate | vm_compute; lia].
Defined.

(** *** The new-work filter and [main] *)

Lemma filter_none {A} (P : A → Prop) `{∀ x, Decision (P x)} (l : list A) :
  Forall (λ x, ¬ P x) l → filter P l = [].
Proof.
  induction 1 as [| x l Hx _ IH]; [done |].
  by rewrite filter_cons_False.
Qed.

Lemma filter_new_foods_filter (foods : list Food) (existing_ids : gset string)
    (ledger : Progress) :
  (filter_new_foods foods existing_ids ledger).1
    = filter (λ food, (external_id food ∉ existing_ids) ∧
                      (external_id food ∉ uploaded_ids ledger)) foods.
Proof.
  unfold filter_new_foods. cbn [fst]. rewrite filter_loop_filter. cbn [app].
  apply list_filter_iff. intros food. by rewrite elem_of_list_to_set.
Qed.

(** X15: filtering is idempotent, keeps no id that the table or the
    ledger already holds, and keeps everything when both are empty. *)
Theorem filter_new_foods_idempotent (foods : list Food)
    (existing_ids : gset string) (ledger : Progress) :
  let new_foods := (filter_new_foods foods existing_ids ledger).1 in
  (filter_new_foods new_foods existing_ids ledger).1 = new_foods ∧
  Forall (λ food, (external_id food ∉ existing_ids) ∧
                  (external_id food ∉ uploaded_ids ledger)) new_foods ∧
  (filter_new_foods foods ∅
     {| uploaded_ids := []; last_batch := 0; total_uploaded := 0 |}).1 = foods.
Proof.
  cbn zeta. rewrite !filter_new_foods_filter. split_and!.
  - by apply list_filter_filter_r.
  - apply Forall_forall. intros food Hin.
    by apply list_elem_of_filter in Hin as [? _].
  - cbn [uploaded_ids]. induction foods as [| food foods IH]; [done |].
    rewrite filter_cons_True; [by rewrite IH | set_solver].
Qed.

(** X16: when every record of the (limited) input is already in the
    table or in the ledger, [main] ends with nothing to upload and
    leaves the world untouched: no embedding request, no upsert, and
    the progress file, if any, stays. *)
Theorem main_nothing_new (sv : Services) (all_foods : list Food)
    (limit : option Z) (confirm : string) (fuel : nat) (w : World)
    (existing_ids : gset string) :
  all_foods ≠ [] →
  get_existing_food_ids sv fuel = Some existing_ids →
  Forall (λ food, external_id food ∈ existing_ids ∨
                  external_id food ∈ uploaded_ids (load_progress w))
         (apply_limit limit all_foods) →
  main sv all_foods limit confirm fuel w = Some (w, AllExist).
Proof.
  intros Hfoods Hexisting Hall. unfold main.
  destruct all_foods as [| food foods']; [done |].
  rewrite Hexisting.
  pose proof (filter_new_foods_filter (apply_limit limit (food :: foods'))
                existing_ids (load_progress w)) as Hfilter.
  destruct (filter_new_foods _ existing_ids (load_progress w))
    as [new_foods ledger].
  cbn [fst] in Hfilter. rewrite filter_none in Hfilter; [by subst |].
  eapply Forall_impl; [exact Hall |]. cbn. tauto.
Qed.

Lemma main_nothing_new_witness :
  main (healthy (numbered_ids 1 3)) (numbered_foods 5) (Some 4%Z) "y" 1
    (ledger_world {| uploaded_ids := ["4"]; last_batch := 1;
                     total_uploaded := 1 |})
  = Some (ledger_world {| uploaded_ids := ["4"]; last_batch := 1;
                          total_uploaded := 1 |}, AllExist).
Proof.
  apply (main_nothing_new _ _ _ _ _ _ (list_to_set (numbered_ids 1 3)));
    [discriminate | reflexivity |].
  apply (bool_decide_unpack _). vm_compute. exact I.
Defined.

(** X17: on a fresh ledger (batch index 0) an answer other than y or Y
    makes [main] end without any effect and without uploading. *)
Theorem main_fresh_needs_confirmation (sv : Services) (all_foods : list Food)
    (limit : option Z) (confirm : string) (fuel : nat) (w w' : World)
    (result : MainResult) :
  last_batch (load_progress w) = 0 →
  lower confirm ≠ "y" →
  main sv all_foods limit confirm fuel w = Some (w', result) →
  w' = w ∧ (result = NoFoods ∨ result = AllExist ∨ result = Cancelled).
Proof.
  intros Hfresh Hanswer. unfold main.
  destruct all_foods as [| food foods']; [intros [= <- <-]; tauto |].
  destruct (get_existing_food_ids sv fuel) as [existing_ids |]; [| done].
  unfold filter_new_foods.
  destruct (filter_loop _ _ _ _) as [| new_food new_foods];
    [intros [= <- <-]; tauto |].
  rewrite Hfresh. apply String.eqb_neq in Hanswer. rewrite Hanswer.
  cbn [Nat.eqb negb andb]. intros [= <- <-]. tauto.
Qed.

Lemma main_fresh_needs_confirmation_witness :
  main (healthy []) (numbered_foods 5) None "n" 1 fresh_world
    = Some (fresh_world, Cancelled) ∧
  fresh_world = fresh_world ∧
  (Cancelled = NoFoods ∨ Cancelled = AllExist ∨ Cancelled = Cancelled).
Proof.
  split; [reflexivity |].
  apply (main_fresh_needs_confirmation (healthy []) (numbered_foods 5) None
           "n" 1 fresh_world fresh_world Cancelled);
    [reflexivity | discriminate | reflexivity].
Defined.

(** X18: once the ledger records a batch index above 0, [main] does not
    ask: it runs the same whatever the answer would have been. *)
Theorem main_resume_ignores_answer (sv : Services) (all_foods : list Food)
    (limit : option Z) (answer1 answer2 : string) (fuel : nat) (w : World) :
  last_batch (load_progress w) ≠ 0 →
  main sv all_foods limit answer1 fuel w
    = main sv all_foods limit answer2 fuel w.
Proof.
  intros Hresume. unfold main.
  destruct all_foods as [| food foods']; [done |].
  destruct (get_existing_food_ids sv fuel) as [existing_ids |]; [| done].
  unfold filter_new_foods.
  destruct (filter_loop _ _ _ _) as [| new_food new_foods]; [done |].
  destruct (Nat.eqb_spec (last_batch (load_progress w)) 0); [done |].
  done.
Qed.

Lemma main_resume_ignores_answer_witness :
  main (healthy []) (numbered_foods 5) None "n" 1
    (ledger_world {| uploaded_ids := ["1"]; last_batch := 1;
                     total_uploaded := 1 |})
  = main (healthy []) (numbered_foods 5) None "y" 1
      (ledger_world {| uploaded_ids := ["1"]; last_batch := 1;
                       total_uploaded := 1 |}).
Proof.
  apply main_resume_ignores_answer. discriminate.
Defined.

(** X19: with collaborators that never fail, a run of [main] that finds
    new records and is confirmed (or resumes) uploads the new records
    from position [last_batch * 50] of the filtered list on, and removes
    the progress file: the records before that position are left out. *)
Theorem main_uploads_tail_of_new_foods (sv : Services) (all_foods : list Food)
    (limit : option Z) (confirm : string) (fuel : nat) (w : World)
    (existing_ids : gset string) :
  well_behaved sv →
  all_foods ≠ [] →
  get_existing_food_ids sv fuel = Some existing_ids →
  last_batch (load_progress w) ≠ 0 ∨ lower confirm = "y" →
  let new_foods :=
    (filter_new_foods (apply_limit limit all_foods) existing_ids
       (load_progress w)).1 in
  new_foods ≠ [] →
  let rest := drop (last_batch (load_progress w) * 50) new_foods in
  ∃ w',
    main sv all_foods limit confirm fuel w
      = Some (w', Uploaded (total_uploaded (load_progress w) + length rest)) ∧
    upserted_ids w' = upserted_ids w ++ map external_id rest ∧
    progress_file w' = None.
Proof.
  intros Hsv Hfoods Hexisting Hgo new_foods Hnew rest. unfold main.
  destruct all_foods as [| food foods']; [done |].
  rewrite Hexisting. subst rest new_foods. unfold filter_new_foods in *.
  cbn [fst] in *.
  destruct (filter_loop _ _ _ _) as [| new_food new_foods] eqn:Hfilter;
    [done |].
  assert (Hask : (last_batch (load_progress w) =? 0)
                 && negb (String.eqb (lower confirm) "y") = false).
  { destruct Hgo as [Hresume | Hyes].
    - by destruct (Nat.eqb_spec (last_batch (load_progress w)) 0).
    - rewrite Hyes. cbn. apply andb_false_r. }
  rewrite Hask.
  destruct (healthy_run sv (new_food :: new_foods) 50 w Hsv ltac:(lia)
              ltac:(done)) as (H1 & H2 & H3 & _).
  destruct (batch_upload_foods sv (new_food :: new_foods) 50 w)
    as [w' uploaded].
  cbn [fst snd] in H1, H2, H3. exists w'. by rewrite H1.
Qed.

Lemma main_uploads_tail_of_new_foods_witness :
  ∃ w',
    main (healthy (numbered_ids 1 2)) (numbered_foods 5) None "Y" 1 fresh_world
      = Some (w', Uploaded 3) ∧
    upserted_ids w' = ["3"; "4"; "5"] ∧ progress_file w' = None.
Proof.
  destruct (main_uploads_tail_of_new_foods (healthy (numbered_ids 1 2))
              (numbered_foods 5) None "Y" 1 fresh_world
              (list_to_set (numbered_ids 1 2)))
    as (w' & H1 & H2 & H3);
    [apply healthy_well_behaved | discriminate | reflexivity
    | by right | discriminate |].
  exists w'. split; [exact H1 |]. split; [exact H2 | exact H3].
Defined.

End UploaderExtras.
